(** * Cross-chain event listener (src/script.py) and the [enforce_types]
    decorator (src/decorators.py): a shallow embedding.

    The Python program mutates objects in place and signals failures with
    exceptions.  We model a cycle of the listener as a state-and-exception
    monad over one record [St] holding the listener's fields, the in-memory
    [StateDB.processed_txs] set, the content of the JSON file backing the
    StateDB, and a trace of observable actions (log lines, calls of
    [process_event], the simulated mint, sleeps).  An exception leaves the
    state as it was when it was raised, as in Python.  The external world
    (web3 node, gas oracle, file system write outcome) is an [Env] record
    of outcomes. *)

From Stdlib Require Import ZArith List Bool Lia.
From stdpp Require Import base gmap strings list.
Import ListNotations.
Set Warnings "-register-all".

(* ------------------------------------------------------------------ *)
(** ** Python exceptions and results *)

Inductive exn :=
| JSONDecodeError
| IOError
| UnicodeDecodeError
| AttributeError
| TypeError
| ValueError
| RequestException
| ConnectionError
| KeyboardInterrupt.

(** [except Exception] catches every exception but [KeyboardInterrupt]
    (a [BaseException]); [except (json.JSONDecodeError, IOError)] catches
    those two only ([UnicodeDecodeError] is a [ValueError], not a
    [JSONDecodeError]). *)
Definition is_Exception (e : exn) : bool :=
  match e with KeyboardInterrupt => false | _ => true end.

Definition is_load_error (e : exn) : bool :=
  match e with JSONDecodeError | IOError => true | _ => false end.

Definition is_RequestException (e : exn) : bool :=
  match e with RequestException => true | _ => false end.

Inductive result (A : Type) := Ok (a : A) | Exc (e : exn).
Arguments Ok {A} a.
Arguments Exc {A} e.

(* ------------------------------------------------------------------ *)
(** ** JSON values, the token stream of a JSON text, and [json.load] *)

Inductive json :=
| JNull
| JBool (b : bool)
| JNum (z : Z)
| JStr (s : string)
| JArr (xs : list json)
| JObj (kvs : list (string * json)).

(** A JSON text up to white space (json.dump's [indent=4] only adds
    white space).  Floats are not modelled. *)
Inductive token :=
| TLBrace | TRBrace | TLBrack | TRBrack | TColon | TComma
| TNull | TTrue | TFalse | TNum (z : Z) | TStr (s : string).

Fixpoint parse_value (fuel : nat) (ts : list token) : option (json * list token) :=
  match fuel with
  | O => None
  | S f =>
      match ts with
      | TNull :: r => Some (JNull, r)
      | TTrue :: r => Some (JBool true, r)
      | TFalse :: r => Some (JBool false, r)
      | TNum z :: r => Some (JNum z, r)
      | TStr s :: r => Some (JStr s, r)
      | TLBrack :: TRBrack :: r => Some (JArr [], r)
      | TLBrack :: r => parse_elems f r []
      | TLBrace :: TRBrace :: r => Some (JObj [], r)
      | TLBrace :: r => parse_members f r []
      | _ => None
      end
  end
with parse_elems (fuel : nat) (ts : list token) (acc : list json)
  : option (json * list token) :=
  match fuel with
  | O => None
  | S f =>
      match parse_value f ts with
      | Some (v, TComma :: r) => parse_elems f r (v :: acc)
      | Some (v, TRBrack :: r) => Some (JArr (rev (v :: acc)), r)
      | _ => None
      end
  end
with parse_members (fuel : nat) (ts : list token) (acc : list (string * json))
  : option (json * list token) :=
  match fuel with
  | O => None
  | S f =>
      match ts with
      | TStr k :: TColon :: r =>
          match parse_value f r with
          | Some (v, TComma :: r') => parse_members f r' ((k, v) :: acc)
          | Some (v, TRBrace :: r') => Some (JObj (rev ((k, v) :: acc)), r')
          | _ => None
          end
      | _ => None
      end
  end.

(** [json.loads]: one value and nothing after it. *)
Definition json_loads (ts : list token) : result json :=
  match parse_value (S (length ts)) ts with
  | Some (j, []) => Ok j
  | _ => Exc JSONDecodeError
  end.

(** The content of the file at [db_file_path]: a text made of JSON tokens,
    a text that is not even lexically JSON, bytes that are not valid in the
    locale's encoding (UTF-8), or a file that cannot be opened for
    reading. *)
Inductive contents :=
| FTokens (ts : list token)
| FLexError
| FUndecodable
| FUnreadable.

(* ------------------------------------------------------------------ *)
(** ** Python values stored in the StateDB set *)

(** The hashable JSON values a Python set built from [json.load] can hold:
    strings, integers (a JSON [true]/[false] is the int 1/0 for hashing
    and equality) and [None]. *)
Inductive pykey := KStr (s : string) | KInt (z : Z) | KNone.

Global Instance pykey_eq_dec : EqDecision pykey.
Proof. solve_decision. Defined.

Global Program Instance pykey_countable : Countable pykey :=
  inj_countable'
    (fun k => match k with
              | KStr s => inl s
              | KInt z => inr (inl z)
              | KNone => inr (inr tt)
              end)
    (fun x => match x with
              | inl s => KStr s
              | inr (inl z) => KInt z
              | inr (inr _) => KNone
              end) _.
Next Obligation. intros []; reflexivity. Qed.

(* ------------------------------------------------------------------ *)
(** ** Observable actions, the listener state and the environment *)

Inductive level := DEBUG | INFO | WARNING | ERROR.

Inductive action :=
| ALog (lvl : level) (msg : string)
| AHandle (blockNumber logIndex : Z) (tx : string)
    (** [self.process_event(event)] is called on this event *)
| ADispatch (tx : string)
    (** the simulated 'mint' on the destination chain *)
| ASleep (secs : Z).

(** The fields of [CrossChainEventListener] and of its [StateDB] that the
    loop reads or writes, the file at [db_file_path] ([None]: the file does
    not exist) and the trace of actions so far. *)
Record St := mkSt {
  last_processed_block : Z;
  poll_interval : Z;
  processed_txs : gset pykey;
  disk : option contents;
  trace : list action
}.

(** A Python value of an event argument; [None] of [option] is a missing
    key ([args.get] returns Python [None] for it). *)
Inductive pyval := PNone | PInt (z : Z) | PStr (s : string).

Record EventArgs := {
  a_from : option pyval;
  a_amount : option pyval;
  a_toChainId : option pyval
}.

(** A decoded [TokensLocked] log entry; [transactionHash] is already the
    [.hex()] string, [args = None] is an entry without an ['args'] key. *)
Record Event := {
  transactionHash : string;
  blockNumber : Z;
  logIndex : Z;
  args : option EventArgs
}.

(** How [open(db_file_path, 'w')] and [json.dump] fare: success, failure to
    open (nothing is touched), or an [IOError] after the file was truncated
    and the first [n] tokens of the text were written. *)
Inductive write_outcome := WriteOk | OpenFails | WriteFailsAfter (n : nat).

(** The response of the gas-oracle HTTP request: the decoded JSON body, or
    an exception raised by [requests.get], [raise_for_status] or
    [response.json()]. *)
Inductive oracle_outcome := OracleJson (j : json) | OracleRaises (e : exn).

(** The outcomes of the calls to the outside world in one cycle.  Calls
    made once per event are indexed by the transaction hash. *)
Record Env := {
  env_block_number : result Z;            (** [web3.eth.block_number] *)
  env_entries : Z -> Z -> result (list Event);
    (** [create_filter(fromBlock, toBlock).get_all_entries()] *)
  env_dest_chain_id : string -> result Z; (** destination [web3.eth.chain_id] *)
  env_oracle : string -> oracle_outcome;  (** gas oracle request *)
  env_write : string -> write_outcome     (** the [_save] after marking this hash *)
}.

(* ------------------------------------------------------------------ *)
(** ** A state and exception monad *)

Definition M (A : Type) : Type := St -> result A * St.

Definition ret {A} (a : A) : M A := fun s => (Ok a, s).
Definition raise {A} (e : exn) : M A := fun s => (Exc e, s).
Definition bind {A B} (m : M A) (k : A -> M B) : M B :=
  fun s => match m s with
           | (Ok a, s') => k a s'
           | (Exc e, s') => (Exc e, s')
           end.
(** [try m except P: h] *)
Definition try_except {A} (m : M A) (P : exn -> bool) (h : exn -> M A) : M A :=
  fun s => match m s with
           | (Exc e, s') => if P e then h e s' else (Exc e, s')
           | r => r
           end.
Definition lift {A} (r : result A) : M A :=
  match r with Ok a => ret a | Exc e => raise e end.
Definition get : M St := fun s => (Ok s, s).

Declare Scope py_scope.
Delimit Scope py_scope with py.
Notation "x <- m ;; k" := (bind m (fun x => k))
  (at level 100, m at next level, right associativity) : py_scope.
Notation "m ;; k" := (bind m (fun _ => k))
  (at level 100, right associativity) : py_scope.
Local Open Scope py_scope.

Definition emit (a : action) : M unit :=
  fun s => (Ok tt, mkSt (last_processed_block s) (poll_interval s)
                       (processed_txs s) (disk s) (trace s ++ [a])).
Definition log (l : level) (m : string) : M unit := emit (ALog l m).
Definition sleep (n : Z) : M unit := emit (ASleep n).

Definition set_processed_txs (x : gset pykey) : M unit :=
  fun s => (Ok tt, mkSt (last_processed_block s) (poll_interval s) x
                       (disk s) (trace s)).
Definition set_disk (d : option contents) : M unit :=
  fun s => (Ok tt, mkSt (last_processed_block s) (poll_interval s)
                       (processed_txs s) d (trace s)).
Definition set_last_processed_block (n : Z) : M unit :=
  fun s => (Ok tt, mkSt n (poll_interval s) (processed_txs s)
                       (disk s) (trace s)).

(** Python's [for x in xs: body(x)] *)
Fixpoint for_each {A} (xs : list A) (body : A -> M unit) : M unit :=
  match xs with
  | [] => ret tt
  | x :: xs' => body x ;; for_each xs' body
  end.

(* ------------------------------------------------------------------ *)
(** ** StateDB *)

(** [data.get(k, default)] on the value returned by [json.load]: only a
    dict has [.get]; of a repeated key the dict keeps the last value. *)
Fixpoint assoc_last (k : string) (kvs : list (string * json)) (d : option json)
  : option json :=
  match kvs with
  | [] => d
  | (k', v) :: r => assoc_last k r (if String.eqb k k' then Some v else d)
  end.

Definition dict_get_opt (data : json) (k : string) : result (option json) :=
  match data with
  | JObj kvs => Ok (assoc_last k kvs None)
  | _ => Exc AttributeError
  end.

Definition dict_get (data : json) (k : string) (default : json) : result json :=
  match dict_get_opt data k with
  | Ok (Some v) => Ok v
  | Ok None => Ok default
  | Exc e => Exc e
  end.

(** [hash(x)] of an element put into a set. *)
Definition hash_key (j : json) : result pykey :=
  match j with
  | JNull => Ok KNone
  | JBool b => Ok (KInt (if b then 1 else 0))
  | JNum z => Ok (KInt z)
  | JStr s => Ok (KStr s)
  | JArr _ | JObj _ => Exc TypeError
  end.

Fixpoint set_of_keys (xs : list json) : result (gset pykey) :=
  match xs with
  | [] => Ok ∅
  | x :: r =>
      match hash_key x with
      | Exc e => Exc e
      | Ok k => match set_of_keys r with
                | Ok X => Ok ({[k]} ∪ X)
                | Exc e => Exc e
                end
      end
  end.

Fixpoint string_chars (s : string) : list pykey :=
  match s with
  | EmptyString => []
  | String c r => KStr (String c EmptyString) :: string_chars r
  end.

(** Python's [set(v)]: iterates a list, a string (its characters) or a
    dict (its keys); other values are not iterable. *)
Definition py_set (v : json) : result (gset pykey) :=
  match v with
  | JArr xs => set_of_keys xs
  | JStr s => Ok (list_to_set (string_chars s))
  | JObj kvs => Ok (list_to_set (map (fun kv => KStr kv.1) kvs))
  | _ => Exc TypeError
  end.

(** [open(path, 'r')] then [json.load(f)]. *)
Definition read_json (c : contents) : result json :=
  match c with
  | FTokens ts => json_loads ts
  | FLexError => Exc JSONDecodeError
  | FUndecodable => Exc UnicodeDecodeError
  | FUnreadable => Exc IOError
  end.

(** [StateDB._load] *)
Definition _load : M (gset pykey) :=
  s <- get ;;
  match disk s with
  | None => ret ∅
  | Some c =>
      try_except
        (data <- lift (read_json c) ;;
         v <- lift (dict_get data "processed_txs" (JArr [])) ;;
         lift (py_set v))
        is_load_error
        (fun _ => log ERROR "Error loading state DB file. Starting with an empty state." ;;
                  ret ∅)
  end.

(** [StateDB.__init__] *)
Definition StateDB_init : M unit :=
  x <- _load ;;
  set_processed_txs x ;;
  log INFO "StateDB initialized.".

(** The text [json.dump({'processed_txs': list(self.processed_txs)}, f)]
    writes, as tokens. *)
Definition key_token (k : pykey) : token :=
  match k with
  | KStr s => TStr s
  | KInt z => TNum z
  | KNone => TNull
  end.

Fixpoint elems_tokens (k : pykey) (r : list pykey) : list token :=
  key_token k ::
  match r with
  | [] => [TRBrack]
  | k' :: r' => TComma :: elems_tokens k' r'
  end.

Definition array_tokens (ks : list pykey) : list token :=
  match ks with
  | [] => [TLBrack; TRBrack]
  | k :: r => TLBrack :: elems_tokens k r
  end.

Definition dump_tokens (X : gset pykey) : list token :=
  [TLBrace; TStr "processed_txs"; TColon] ++ array_tokens (elements X) ++ [TRBrace].

(** [StateDB._save]: [open(path, 'w')] truncates the file in place, then
    [json.dump] writes; an [IOError] is logged, not raised. *)
Definition _save (w : write_outcome) : M unit :=
  s <- get ;;
  let text := dump_tokens (processed_txs s) in
  match w with
  | WriteOk => set_disk (Some (FTokens text))
  | OpenFails => log ERROR "Could not save state to DB file."
  | WriteFailsAfter n =>
      set_disk (Some (FTokens (take n text))) ;;
      log ERROR "Could not save state to DB file."
  end.

(** [StateDB.is_processed] *)
Definition is_processed (tx_hash : pykey) : M bool :=
  s <- get ;; ret (bool_decide (tx_hash ∈ processed_txs s)).

(** [StateDB.mark_as_processed]; the outcome of its [_save] comes from the
    environment. *)
Definition mark_as_processed (env : Env) (tx_hash : string) : M unit :=
  s <- get ;;
  set_processed_txs ({[KStr tx_hash]} ∪ processed_txs s) ;;
  _save (env_write env tx_hash) ;;
  log INFO "Transaction marked as processed.".

(* ------------------------------------------------------------------ *)
(** ** BlockchainConnector and the gas oracle *)

(** [BlockchainConnector.get_latest_block_number]: [r] is the outcome of
    [self.web3.eth.block_number]. *)
Definition get_latest_block_number (r : result Z) : M (option Z) :=
  try_except (n <- lift r ;; ret (Some n)) is_Exception
    (fun _ => log ERROR "Failed to get latest block number." ;; ret None).

(** [CrossChainEventListener._get_current_gas_price_from_oracle] *)
Definition _get_current_gas_price_from_oracle (o : oracle_outcome)
  : M (option json) :=
  try_except
    (data <- lift (match o with
                   | OracleJson j => Ok j
                   | OracleRaises e => Exc e
                   end) ;;
     r <- lift (dict_get data "result" (JObj [])) ;;
     lift (dict_get_opt r "ProposeGasPrice"))
    is_RequestException
    (fun _ => log WARNING "Could not fetch gas price from oracle." ;; ret None).

(** How [CrossChainEventListener._get_start_block] ends: with a block
    number, or in [exit(1)], whose [SystemExit] no handler of the script
    catches. *)
Inductive start_block := StartAt (n : Z) | SysExit (code : Z).

(** [CrossChainEventListener._get_start_block]: [start_block_config] is
    [config['listener']['start_block']], an int or a string such as
    ['latest']; [r] is the outcome of [web3.eth.block_number] on the source
    chain. *)
Definition _get_start_block (start_block_config : pyval) (r : result Z) : M start_block :=
  match start_block_config with
  | PInt n =>
      log INFO "Starting from configured block number" ;;
      ret (StartAt n)
  | _ =>
      latest_block <- get_latest_block_number r ;;
      match latest_block with
      | Some n =>
          log INFO "Starting from the latest block" ;;
          ret (StartAt n)
      | None =>
          log ERROR "Could not fetch the latest block. Exiting." ;;
          ret (SysExit 1)
      end
  end.

(* ------------------------------------------------------------------ *)
(** ** CrossChainEventListener.process_event *)

(** [args.get(name)] on [event.get('args', {})] *)
Definition arg_get (a : option EventArgs) (f : EventArgs -> option pyval)
  : option pyval :=
  match a with Some x => f x | None => None end.

(** Python truthiness of an argument ([None], [0] and [''] are falsy). *)
Definition truthy (v : option pyval) : bool :=
  match v with
  | None | Some PNone => false
  | Some (PInt z) => negb (Z.eqb z 0)
  | Some (PStr s) => negb (String.eqb s "")
  end.

(** [target_chain_id != destination_chain_id] with an int on the right. *)
Definition py_ne (v : option pyval) (d : Z) : bool :=
  match v with
  | Some (PInt z) => negb (Z.eqb z d)
  | _ => true
  end.

(** [Web3.from_wei(amount, 'ether')]: 0 is returned at once; otherwise the
    value must lie in [MIN_WEI, MAX_WEI] = [0, 2^256 - 1], and comparing a
    non-number with 0 raises [TypeError]. *)
Definition from_wei (amount : option pyval) : result unit :=
  match amount with
  | Some (PInt z) =>
      if Z.eqb z 0 then Ok tt
      else if orb (Z.ltb z 0) (Z.ltb (2 ^ 256 - 1) z) then Exc ValueError
      else Ok tt
  | _ => Exc TypeError
  end.

Definition process_event (env : Env) (event : Event) : M unit :=
  let tx_hash := transactionHash event in
  b <- is_processed (KStr tx_hash) ;;
  if b then log DEBUG "Skipping already processed transaction"
  else
    log INFO "Found new 'TokensLocked' event" ;;
    let a := args event in
    let sender := arg_get a a_from in
    let amount := arg_get a a_amount in
    let target_chain_id := arg_get a a_toChainId in
    if negb (truthy sender && truthy amount && truthy target_chain_id) then
      log ERROR "Malformed event. Missing arguments. Skipping."
    else
      destination_chain_id <- lift (env_dest_chain_id env tx_hash) ;;
      if py_ne target_chain_id destination_chain_id then
        log WARNING "Event is for a different chain. Skipping."
      else
        lift (from_wei amount) ;;
        log INFO "Processing lock" ;;
        _ <- _get_current_gas_price_from_oracle (env_oracle env tx_hash) ;;
        log INFO "(Oracle) Suggested gas price on Mainnet" ;;
        emit (ADispatch tx_hash) ;;
        mark_as_processed env tx_hash.

(* ------------------------------------------------------------------ *)
(** ** CrossChainEventListener.listen *)

(** [for event in events: self.process_event(event)] *)
Definition process_events (env : Env) (events : list Event) : M unit :=
  for_each events (fun event =>
    emit (AHandle (blockNumber event) (logIndex event) (transactionHash event)) ;;
    process_event env event).

(** The body of the [try] in one iteration of [while True]. *)
Definition listen_body (env : Env) : M unit :=
  latest_block <- get_latest_block_number (env_block_number env) ;;
  s <- get ;;
  match latest_block with
  | None =>
      log WARNING "Could not get latest block. Retrying in {self.poll_interval}s..." ;;
      sleep (poll_interval s)
  | Some latest =>
      (if Z.ltb (last_processed_block s) latest then
         let from_block := (last_processed_block s + 1)%Z in
         let to_block := latest in
         log INFO "Scanning blocks" ;;
         events <- lift (env_entries env from_block to_block) ;;
         (match events with
          | [] => log INFO "No 'TokensLocked' events found"
          | _ => process_events env events
          end) ;;
         set_last_processed_block to_block
       else log DEBUG "No new blocks to process.") ;;
      s' <- get ;;
      sleep (poll_interval s')
  end.

(** One iteration of [while True: try: ... except Exception as e: ...]. *)
Definition listen_iter (env : Env) : M unit :=
  try_except (listen_body env) is_Exception
    (fun _ => log ERROR "An unexpected error occurred in the listener loop" ;;
              s <- get ;;
              log INFO "Restarting loop" ;;
              sleep (poll_interval s * 2)%Z).

(** The first [length envs] iterations of [listen], one environment per
    iteration. *)
Definition listen (envs : list Env) : M unit := for_each envs listen_iter.

(** The simulated mints in a trace. *)
Definition dispatches (tr : list action) : list string :=
  flat_map (fun a => match a with ADispatch tx => [tx] | _ => [] end) tr.

(** The events handed to [process_event] in a trace, as
    (blockNumber, logIndex, transactionHash). *)
Definition handled (tr : list action) : list (Z * Z * string) :=
  flat_map (fun a => match a with AHandle b i tx => [(b, i, tx)] | _ => [] end) tr.

(** The sleeps in a trace. *)
Definition sleeps (tr : list action) : list Z :=
  flat_map (fun a => match a with ASleep n => [n] | _ => [] end) tr.

(** The JSON value [json.load] reads back for an element of the set. *)
Definition key_json (k : pykey) : json :=
  match k with
  | KStr s => JStr s
  | KInt z => JNum z
  | KNone => JNull
  end.

(* ------------------------------------------------------------------ *)
(** ** decorators.enforce_types *)

Module Decorators.

(** The classes of the values below; [bool] is a subclass of [int] and
    everything is an [object]. *)
Inductive pycls := CInt | CBool | CStr | CNoneType | CTuple | CObject.

Inductive pyobj :=
| VInt (z : Z)
| VBool (b : bool)
| VStr (s : string)
| VNone
| VTuple (xs : list pyobj).

Definition type_of (v : pyobj) : pycls :=
  match v with
  | VInt _ => CInt
  | VBool _ => CBool
  | VStr _ => CStr
  | VNone => CNoneType
  | VTuple _ => CTuple
  end.

Definition pycls_eqb (c d : pycls) : bool :=
  match c, d with
  | CInt, CInt | CBool, CBool | CStr, CStr | CNoneType, CNoneType
  | CTuple, CTuple | CObject, CObject => true
  | _, _ => false
  end.

Definition issubclass (c d : pycls) : bool :=
  pycls_eqb c d || pycls_eqb d CObject || (pycls_eqb c CBool && pycls_eqb d CInt).

(** An annotation object: a class, the constant [None] (as in [-> None]),
    a subscripted generic or special form [isinstance] refuses (such as
    [List[int]], [list[int]] or [Any]; [name] is its [__name__]), a string
    (forward reference or postponed annotation), a [typing.Union] of
    classes (such as [Optional[int]] or [Union[int, str]]), a union of
    classes written [int | str] ([types.UnionType]), or a tuple of
    classes. *)
Inductive ann :=
| AClass (c : pycls)
| ANoneConst
| ASubscripted (name : string)
| AString (s : string)
| ATypingUnion (cs : list pycls)
| AUnionType (cs : list pycls)
| ATuple (cs : list pycls).

(** [isinstance(value, annotation)] (Python 3.10 and later): the second
    argument must be a class, a union of classes or a tuple of classes,
    otherwise [TypeError] is raised. *)
Definition isinstance (v : pyobj) (a : ann) : result bool :=
  match a with
  | AClass c => Ok (issubclass (type_of v) c)
  | ATypingUnion cs | AUnionType cs | ATuple cs => Ok (existsb (issubclass (type_of v)) cs)
  | _ => Exc TypeError
  end.

(** Whether [annotation.__name__] exists: classes and the [typing] forms
    have one; [None], strings, [int | str] and tuples do not. *)
Definition has_name (a : ann) : bool :=
  match a with
  | AClass _ | ASubscripted _ | ATypingUnion _ => true
  | ANoneConst | AString _ | AUnionType _ | ATuple _ => false
  end.

(** [raise TypeError(f"... must be {expected.__name__}, ...")]: building
    the message raises [AttributeError] first when [expected] has no
    [__name__]. *)
Definition mismatch_error (expected : ann) : exn :=
  if has_name expected then TypeError else AttributeError.

Inductive param_kind :=
| Positional (default : option pyobj)
| VarPositional.

Record Param := { pname : string; pann : option ann; pkind : param_kind }.

(** A Python function: its parameters with their annotations, its return
    annotation, and its body on the bound arguments. *)
Record PyFunc := {
  fparams : list Param;
  freturn : option ann;
  fbody : list (string * pyobj) -> result pyobj
}.

(** [sig.bind( *args)] followed by [apply_defaults()], for positional
    calls: the [*args] parameter takes the rest as a tuple (the empty tuple
    by default); parameters after it can only get their default. *)
Fixpoint bind_args (ps : list Param) (args : list pyobj)
  : result (list (string * pyobj)) :=
  match ps with
  | [] => match args with [] => Ok [] | _ :: _ => Exc TypeError end
  | p :: ps' =>
      match pkind p with
      | VarPositional =>
          match bind_args ps' [] with
          | Ok r => Ok ((pname p, VTuple args) :: r)
          | Exc e => Exc e
          end
      | Positional d =>
          match args, d with
          | a :: args', _ =>
              match bind_args ps' args' with
              | Ok r => Ok ((pname p, a) :: r)
              | Exc e => Exc e
              end
          | [], Some v =>
              match bind_args ps' [] with
              | Ok r => Ok ((pname p, v) :: r)
              | Exc e => Exc e
              end
          | [], None => Exc TypeError
          end
      end
  end.

(** [func.__annotations__[name]] for a parameter name. *)
Fixpoint annotation_of (ps : list Param) (name : string) : option ann :=
  match ps with
  | [] => None
  | p :: ps' => if String.eqb (pname p) name then pann p else annotation_of ps' name
  end.

(** The loop over [bound_args.arguments.items()]. *)
Fixpoint check_args (ps : list Param) (bound : list (string * pyobj)) : result unit :=
  match bound with
  | [] => Ok tt
  | (name, value) :: r =>
      match annotation_of ps name with
      | None => check_args ps r
      | Some expected =>
          match isinstance value expected with
          | Ok true => check_args ps r
          | Ok false => Exc (mismatch_error expected)
          | Exc e => Exc e
          end
      end
  end.

(** Calling [func( *args)] without the decorator. *)
Definition call (f : PyFunc) (args : list pyobj) : result pyobj :=
  match bind_args (fparams f) args with
  | Ok bound => fbody f bound
  | Exc e => Exc e
  end.

(** Calling [enforce_types(func)( *args)]: the result, and whether the body
    of [func] was executed. *)
Definition enforce_types (f : PyFunc) (args : list pyobj) : result pyobj * bool :=
  match bind_args (fparams f) args with
  | Exc e => (Exc e, false)
  | Ok bound =>
      match check_args (fparams f) bound with
      | Exc e => (Exc e, false)
      | Ok _ =>
          match fbody f bound with
          | Exc e => (Exc e, true)
          | Ok r =>
              (match freturn f with
               | None => Ok r
               | Some expected =>
                   match isinstance r expected with
                   | Ok true => Ok r
                   | Ok false => Exc (mismatch_error expected)
                   | Exc e => Exc e
                   end
               end, true)
          end
      end
  end.

(** The meaning PEP 484 gives to a class annotation, to [None] used as
    an annotation (it stands for [type(None)]) and to a union of classes. *)
Definition hint_matches (v : pyobj) (a : ann) : bool :=
  match a with
  | AClass c => issubclass (type_of v) c
  | ANoneConst => match v with VNone => true | _ => false end
  | ATypingUnion cs | AUnionType cs => existsb (issubclass (type_of v)) cs
  | _ => false
  end.

End Decorators.

(* ================================================================== *)
(** * Properties *)

(** ** The JSON file written by [_save] is read back by [_load] *)

Lemma parse_key_token (f : nat) (k : pykey) (r : list token) :
  parse_value (S f) (key_token k :: r) = Some (key_json k, r).
Proof. destruct k; reflexivity. Qed.

Lemma parse_elems_step (f : nat) (ts : list token) (acc : list json) :
  parse_elems (S f) ts acc
  = match parse_value f ts with
    | Some (v, TComma :: r) => parse_elems f r (v :: acc)
    | Some (v, TRBrack :: r) => Some (JArr (rev (v :: acc)), r)
    | _ => None
    end.
Proof. reflexivity. Qed.

Lemma parse_elems_tokens (r : list pykey) :
  forall (k : pykey) (acc : list json) (f : nat) (rest : list token),
  S (length r) < f ->
  parse_elems f (elems_tokens k r ++ rest) acc
  = Some (JArr (rev acc ++ map key_json (k :: r)), rest).
Proof.
  induction r as [|k' r IH]; intros k acc f rest Hf.
  - destruct f as [|[|f]]; [lia|lia|].
    rewrite parse_elems_step. cbn [elems_tokens app].
    rewrite parse_key_token. reflexivity.
  - destruct f as [|[|f]]; [lia|lia|].
    rewrite parse_elems_step. cbn [elems_tokens app].
    rewrite parse_key_token. cbn iota beta.
    rewrite IH by (cbn [length] in Hf; lia).
    cbn [rev map]. rewrite <- app_assoc. reflexivity.
Qed.

Lemma parse_value_lbrack (f : nat) (ts : list token) :
  (forall ts', ts <> TRBrack :: ts') ->
  parse_value (S f) (TLBrack :: ts) = parse_elems f ts [].
Proof.
  intros H. destruct ts as [|t ts]; [reflexivity|].
  destruct t; try reflexivity. exfalso. eapply H. reflexivity.
Qed.

Lemma length_elems_tokens (k : pykey) (r : list pykey) :
  length (elems_tokens k r) = 2 * length r + 2.
Proof.
  revert k. induction r as [|k' r IH]; intros k; [reflexivity|].
  cbn [elems_tokens length]. rewrite IH. cbn [length]. lia.
Qed.

Lemma parse_dump_fuel (ks : list pykey) (f : nat) :
  length ks + 3 < f ->
  parse_value f ([TLBrace; TStr "processed_txs"; TColon] ++ array_tokens ks ++ [TRBrace])
  = Some (JObj [("processed_txs", JArr (map key_json ks))], []).
Proof.
  intros Hf. destruct f as [|[|[|f]]]; try lia.
  destruct ks as [|k r]; [reflexivity|].
  cbn [app array_tokens].
  change (parse_value (S (S (S f))) (TLBrace :: TStr "processed_txs" :: TColon :: ?ts))
    with (match parse_value (S f) ts with
          | Some (v, TComma :: r') => parse_members (S f) r' [("processed_txs", v)]
          | Some (v, TRBrace :: r') => Some (JObj (rev [("processed_txs", v)]), r')
          | _ => None
          end).
  rewrite parse_value_lbrack.
  - rewrite parse_elems_tokens by (cbn [length] in Hf; lia). reflexivity.
  - intros ts'. destruct k, r; cbn; discriminate.
Qed.

Lemma json_loads_dump (X : gset pykey) :
  json_loads (dump_tokens X)
  = Ok (JObj [("processed_txs", JArr (map key_json (elements X)))]).
Proof.
  unfold json_loads, dump_tokens.
  rewrite parse_dump_fuel; [reflexivity|].
  rewrite !length_app. destruct (elements X) as [|k r]; cbn [array_tokens length];
    [lia|]. rewrite length_elems_tokens. cbn [length]. lia.
Qed.

Lemma set_of_keys_map (ks : list pykey) :
  set_of_keys (map key_json ks) = Ok (list_to_set ks).
Proof.
  induction ks as [|k ks IH]; [reflexivity|].
  destruct k; cbn [map set_of_keys key_json hash_key]; rewrite IH; reflexivity.
Qed.

Ltac unfold_M :=
  unfold bind, ret, raise, try_except, lift, get, emit, log, sleep,
    set_processed_txs, set_disk, set_last_processed_block in *.

Lemma load_dump (X : gset pykey) (s : St) :
  disk s = Some (FTokens (dump_tokens X)) -> _load s = (Ok X, s).
Proof.
  intros H. unfold _load. unfold_M. rewrite H.
  unfold read_json. rewrite json_loads_dump. unfold_M.
  cbn -[set_of_keys map elements].
  rewrite set_of_keys_map, list_to_set_elements_L. reflexivity.
Qed.

(** The disk after [_save w] of the set [X] over the file [d]. *)
Definition saved_disk (w : write_outcome) (X : gset pykey) (d : option contents)
  : option contents :=
  match w with
  | WriteOk => Some (FTokens (dump_tokens X))
  | OpenFails => d
  | WriteFailsAfter n => Some (FTokens (take n (dump_tokens X)))
  end.

Lemma flat_map_app_single {A B} (f : A -> list B) (l : list A) (a : A) :
  flat_map f (l ++ [a]) = flat_map f l ++ f a.
Proof. rewrite flat_map_app. cbn. rewrite app_nil_r. reflexivity. Qed.

Lemma mark_as_processed_spec (env : Env) (t : string) (s : St) :
  let s' := snd (mark_as_processed env t s) in
  fst (mark_as_processed env t s) = Ok tt /\
  processed_txs s' = {[KStr t]} ∪ processed_txs s /\
  disk s' = saved_disk (env_write env t) ({[KStr t]} ∪ processed_txs s) (disk s) /\
  last_processed_block s' = last_processed_block s /\
  poll_interval s' = poll_interval s /\
  dispatches (trace s') = dispatches (trace s) /\
  handled (trace s') = handled (trace s) /\
  sleeps (trace s') = sleeps (trace s).
Proof.
  destruct s as [lpb pi X d tr].
  unfold mark_as_processed, _save. unfold_M. cbn.
  destruct (env_write env t); cbn;
    unfold dispatches, handled, sleeps; rewrite ?flat_map_app_single; cbn;
    rewrite ?app_nil_r, ?flat_map_app_single; cbn; rewrite ?app_nil_r;
    repeat split; reflexivity.
Qed.



Lemma StateDB_init_loaded (X : gset pykey) (s : St) :
  _load s = (Ok X, s) ->
  StateDB_init s = (Ok tt, mkSt (last_processed_block s) (poll_interval s) X
                               (disk s) (trace s ++ [ALog INFO "StateDB initialized."])).
Proof.
  intros H. unfold StateDB_init. unfold bind at 1. rewrite H.
  destruct s. reflexivity.
Qed.

(** ** Frame of [process_event]: the listener's fields, sleeps and calls of
    [process_event] are left alone *)

Definition event_key (e : Event) : Z * Z * string :=
  (blockNumber e, logIndex e, transactionHash e).

Definition frame (s s' : St) : Prop :=
  poll_interval s' = poll_interval s /\
  last_processed_block s' = last_processed_block s /\
  sleeps (trace s') = sleeps (trace s) /\
  handled (trace s') = handled (trace s).

(** [processed_txs] only grows. *)
Definition grows (s s' : St) : Prop := processed_txs s ⊆ processed_txs s'.

(** [m] relates its start and end states by [R], whatever it returns. *)
Definition preserved (R : St -> St -> Prop) {A} (m : M A) : Prop :=
  forall s, R s (snd (m s)).

Global Instance frame_refl : Reflexive frame.
Proof. intros s. repeat split. Qed.
Global Instance frame_trans : Transitive frame.
Proof. intros s1 s2 s3 (? & ? & ? & ?) (? & ? & ? & ?). repeat split; congruence. Qed.
Global Instance grows_refl : Reflexive grows.
Proof. intros s. unfold grows. set_solver. Qed.
Global Instance grows_trans : Transitive grows.
Proof. intros s1 s2 s3. unfold grows. set_solver. Qed.

Section Preserved.
Context (R : St -> St -> Prop) `{!Reflexive R} `{!Transitive R}.

Lemma preserved_ret {A} (a : A) : preserved R (ret a).
Proof. intros s. reflexivity. Qed.
Lemma preserved_raise {A} (e : exn) : preserved R (@raise A e).
Proof. intros s. reflexivity. Qed.
Lemma preserved_lift {A} (r : result A) : preserved R (lift r).
Proof. destruct r; intros s; reflexivity. Qed.
Lemma preserved_get : preserved R get.
Proof. intros s. reflexivity. Qed.

Lemma preserved_bind {A B} (m : M A) (k : A -> M B) :
  preserved R m -> (forall a, preserved R (k a)) -> preserved R (bind m k).
Proof.
  intros Hm Hk s. unfold bind. specialize (Hm s).
  destruct (m s) as [[a|e] s1]; cbn in Hm |- *; [|exact Hm].
  etransitivity; [exact Hm|apply Hk].
Qed.

Lemma preserved_try_except {A} (m : M A) (P : exn -> bool) (h : exn -> M A) :
  preserved R m -> (forall e, preserved R (h e)) -> preserved R (try_except m P h).
Proof.
  intros Hm Hh s. unfold try_except. specialize (Hm s).
  destruct (m s) as [[a|e] s1]; cbn in Hm |- *; [exact Hm|].
  destruct (P e); [|exact Hm]. etransitivity; [exact Hm|apply Hh].
Qed.

Lemma preserved_for_each {A} (xs : list A) (body : A -> M unit) :
  (forall x, preserved R (body x)) -> preserved R (for_each xs body).
Proof.
  intros Hb. induction xs as [|x xs IH]; cbn [for_each];
    [apply preserved_ret|apply preserved_bind; auto].
Qed.
End Preserved.

Create HintDb preserved.

Ltac preserved_tac :=
  repeat match goal with
  | |- Reflexive _ => apply _
  | |- Transitive _ => apply _
  | |- forall _, preserved _ _ => intros ?
  | |- preserved _ (bind _ _) => apply preserved_bind
  | |- preserved _ (try_except _ _ _) => apply preserved_try_except
  | |- preserved _ (for_each _ _) => apply preserved_for_each
  | |- preserved _ (if ?b then _ else _) => destruct b
  | |- preserved _ (match ?x with _ => _ end) => destruct x
  | |- preserved _ (ret _) => apply preserved_ret
  | |- preserved _ (raise _) => apply preserved_raise
  | |- preserved _ (lift _) => apply preserved_lift
  | |- preserved _ get => apply preserved_get
  | |- preserved _ _ => solve [eauto with preserved]
  end.

Lemma stable_emit (a : action) :
  (forall n, a <> ASleep n) -> (forall b i t, a <> AHandle b i t) ->
  preserved frame (emit a).
Proof.
  intros H1 H2 [lpb pi X d tr]. unfold frame, emit, sleeps, handled; cbn.
  rewrite !flat_map_app_single.
  destruct a; cbn; rewrite ?app_nil_r; repeat split;
    try (exfalso; eapply H1; reflexivity); exfalso; eapply H2; reflexivity.
Qed.

Lemma stable_log (l : level) (m : string) : preserved frame (log l m).
Proof. apply stable_emit; discriminate. Qed.
Lemma stable_dispatch (t : string) : preserved frame (emit (ADispatch t)).
Proof. apply stable_emit; discriminate. Qed.
Lemma stable_set_processed_txs (X : gset pykey) : preserved frame (set_processed_txs X).
Proof. intros s. repeat split. Qed.
Lemma stable_set_disk (d : option contents) : preserved frame (set_disk d).
Proof. intros s. repeat split. Qed.

Lemma grows_emit (a : action) : preserved grows (emit a).
Proof. intros s. unfold grows. reflexivity. Qed.
Lemma grows_log (l : level) (m : string) : preserved grows (log l m).
Proof. apply grows_emit. Qed.
Lemma grows_sleep (n : Z) : preserved grows (sleep n).
Proof. apply grows_emit. Qed.
Lemma grows_set_disk (d : option contents) : preserved grows (set_disk d).
Proof. intros s. unfold grows. reflexivity. Qed.
Lemma grows_set_last_processed_block (n : Z) : preserved grows (set_last_processed_block n).
Proof. intros s. unfold grows. reflexivity. Qed.

#[global] Hint Resolve stable_log stable_dispatch stable_set_processed_txs
  stable_set_disk grows_emit grows_log grows_sleep grows_set_disk
  grows_set_last_processed_block : preserved.

Lemma stable_is_processed (k : pykey) : preserved frame (is_processed k).
Proof. unfold is_processed. preserved_tac. Qed.
Lemma grows_is_processed (k : pykey) : preserved grows (is_processed k).
Proof. unfold is_processed. preserved_tac. Qed.
Lemma stable__save (w : write_outcome) : preserved frame (_save w).
Proof. unfold _save. preserved_tac. Qed.
Lemma grows__save (w : write_outcome) : preserved grows (_save w).
Proof. unfold _save. preserved_tac. Qed.
#[global] Hint Resolve stable_is_processed grows_is_processed stable__save grows__save
  : preserved.

Lemma stable_mark_as_processed (env : Env) (t : string) :
  preserved frame (mark_as_processed env t).
Proof. unfold mark_as_processed. preserved_tac. Qed.

Lemma grows_mark_as_processed (env : Env) (t : string) :
  preserved grows (mark_as_processed env t).
Proof.
  intros s. destruct (mark_as_processed_spec env t s) as (_ & HX & _).
  unfold grows. rewrite HX. set_solver.
Qed.

Lemma stable_oracle (o : oracle_outcome) :
  preserved frame (_get_current_gas_price_from_oracle o).
Proof. unfold _get_current_gas_price_from_oracle. preserved_tac. Qed.
Lemma grows_oracle (o : oracle_outcome) :
  preserved grows (_get_current_gas_price_from_oracle o).
Proof. unfold _get_current_gas_price_from_oracle. preserved_tac. Qed.
Lemma stable_get_latest_block_number (r : result Z) :
  preserved frame (get_latest_block_number r).
Proof. unfold get_latest_block_number. preserved_tac. Qed.
Lemma grows_get_latest_block_number (r : result Z) :
  preserved grows (get_latest_block_number r).
Proof. unfold get_latest_block_number. preserved_tac. Qed.
#[global] Hint Resolve stable_mark_as_processed grows_mark_as_processed stable_oracle
  grows_oracle stable_get_latest_block_number grows_get_latest_block_number : preserved.

Lemma stable_process_event (env : Env) (e : Event) : preserved frame (process_event env e).
Proof. unfold process_event. cbv zeta. preserved_tac. Qed.
Lemma grows_process_event (env : Env) (e : Event) : preserved grows (process_event env e).
Proof. unfold process_event. cbv zeta. preserved_tac. Qed.
#[global] Hint Resolve grows_process_event : preserved.

Lemma grows_listen (envs : list Env) : preserved grows (listen envs).
Proof.
  unfold listen, listen_iter, listen_body, process_events. preserved_tac.
Qed.

Lemma bind_Ok {A B} (m : M A) (k : A -> M B) (s s1 : St) (a : A) :
  m s = (Ok a, s1) -> bind m k s = k a s1.
Proof. intros H. unfold bind. rewrite H. reflexivity. Qed.

Lemma bind_Exc {A B} (m : M A) (k : A -> M B) (s s1 : St) (e : exn) :
  m s = (Exc e, s1) -> bind m k s = (Exc e, s1).
Proof. intros H. unfold bind. rewrite H. reflexivity. Qed.

Lemma emit_eq (a : action) (s : St) :
  emit a s = (Ok tt, mkSt (last_processed_block s) (poll_interval s)
                          (processed_txs s) (disk s) (trace s ++ [a])).
Proof. reflexivity. Qed.

(** [process_events] calls [process_event] on a prefix of the events, in
    their order, and on all of them when no exception escapes. *)
Lemma process_events_spec (env : Env) (evs : list Event) :
  forall s : St,
  let s' := snd (process_events env evs s) in
  poll_interval s' = poll_interval s /\
  last_processed_block s' = last_processed_block s /\
  sleeps (trace s') = sleeps (trace s) /\
  exists k, k <= length evs /\
    handled (trace s') = handled (trace s) ++ map event_key (firstn k evs) /\
    (fst (process_events env evs s) = Ok tt -> k = length evs).
Proof.
  induction evs as [|e evs IH]; intros s; cbv zeta.
  - repeat split. exists 0. split; [lia|]. split; [cbn; rewrite app_nil_r; reflexivity|].
    reflexivity.
  - unfold process_events. cbn [for_each].
    change (for_each evs _) with (process_events env evs).
    set (a := AHandle (blockNumber e) (logIndex e) (transactionHash e)).
    set (s1 := mkSt (last_processed_block s) (poll_interval s)
                    (processed_txs s) (disk s) (trace s ++ [a])).
    assert (E1 : emit a s = (Ok tt, s1)) by reflexivity.
    assert (Hh1 : handled (trace s1) = handled (trace s) ++ [event_key e]).
    { cbn. unfold handled. rewrite flat_map_app_single. reflexivity. }
    assert (Hs1 : sleeps (trace s1) = sleeps (trace s)).
    { cbn. unfold sleeps. rewrite flat_map_app_single. cbn. apply app_nil_r. }
    destruct (stable_process_event env e s1) as (Hp2 & Hl2 & Hs2 & Hh2).
    destruct (process_event env e s1) as [[[]|ex] s2] eqn:E2; cbn [snd] in *.
    + rewrite (bind_Ok _ _ _ _ _ (eq_trans (bind_Ok _ _ _ _ _ E1) E2)).
      destruct (IH s2) as (Hp3 & Hl3 & Hs3 & k & Hk & Hh3 & Hok).
      split; [rewrite Hp3, Hp2; reflexivity|].
      split; [rewrite Hl3, Hl2; reflexivity|].
      split; [rewrite Hs3, Hs2, Hs1; reflexivity|].
      exists (S k). split; [cbn; lia|]. split.
      * rewrite Hh3, Hh2, Hh1. cbn. rewrite <- app_assoc. reflexivity.
      * intros Hr. cbn. f_equal. apply Hok. exact Hr.
    + rewrite (bind_Exc _ _ _ _ _ (eq_trans (bind_Ok _ _ _ _ _ E1) E2)). cbn [snd fst].
      split; [rewrite Hp2; reflexivity|].
      split; [rewrite Hl2; reflexivity|].
      split; [rewrite Hs2, Hs1; reflexivity|].
      exists 1. split; [cbn; lia|]. split.
      * rewrite Hh2, Hh1. reflexivity.
      * discriminate.
Qed.

(** ** The cases of one iteration of [listen] *)

Definition with_trace (s : St) (tr : list action) : St :=
  mkSt (last_processed_block s) (poll_interval s) (processed_txs s) (disk s) tr.

Lemma listen_body_height_fails (env : Env) (s : St) (e : exn) :
  env_block_number env = Exc e -> is_Exception e = true ->
  listen_body env s
  = (Ok tt, with_trace s (((trace s
      ++ [ALog ERROR "Failed to get latest block number."])
      ++ [ALog WARNING "Could not get latest block. Retrying in {self.poll_interval}s..."])
      ++ [ASleep (poll_interval s)])).
Proof.
  intros H He. destruct s. unfold listen_body, get_latest_block_number.
  rewrite H. unfold_M. cbn. rewrite He. reflexivity.
Qed.

Lemma listen_body_height_interrupt (env : Env) (s : St) (e : exn) :
  env_block_number env = Exc e -> is_Exception e = false ->
  listen_body env s = (Exc e, s).
Proof.
  intros H He. destruct s. unfold listen_body, get_latest_block_number.
  rewrite H. unfold_M. cbn. rewrite He. reflexivity.
Qed.

Lemma listen_body_no_new_blocks (env : Env) (s : St) (latest : Z) :
  env_block_number env = Ok latest -> (latest <= last_processed_block s)%Z ->
  listen_body env s
  = (Ok tt, with_trace s ((trace s ++ [ALog DEBUG "No new blocks to process."])
                          ++ [ASleep (poll_interval s)])).
Proof.
  intros H Hle. destruct s as [lpb pi X d tr]. cbn in Hle.
  unfold listen_body, get_latest_block_number. rewrite H. unfold_M. cbn.
  replace (lpb <? latest)%Z with false by (symmetry; apply Z.ltb_ge; lia).
  reflexivity.
Qed.

Lemma listen_body_scan_fails (env : Env) (s : St) (latest : Z) (e : exn) :
  env_block_number env = Ok latest -> (last_processed_block s < latest)%Z ->
  env_entries env (last_processed_block s + 1) latest = Exc e ->
  listen_body env s = (Exc e, with_trace s (trace s ++ [ALog INFO "Scanning blocks"])).
Proof.
  intros H Hlt He. destruct s as [lpb pi X d tr]. cbn in Hlt, He.
  unfold listen_body, get_latest_block_number. rewrite H. unfold_M. cbn.
  replace (lpb <? latest)%Z with true by (symmetry; apply Z.ltb_lt; lia).
  cbn. rewrite He. reflexivity.
Qed.

(** What [listen_body] does once the scan returned [evs]. *)
Definition after_scan (env : Env) (evs : list Event) (latest : Z) : M unit :=
  (match evs with
   | [] => log INFO "No 'TokensLocked' events found"
   | _ => process_events env evs
   end) ;;
  set_last_processed_block latest ;;
  s' <- get ;;
  sleep (poll_interval s').

Lemma bind_assoc {A B C} (m : M A) (k : A -> M B) (k' : B -> M C) (s : St) :
  bind (bind m k) k' s = bind m (fun a => bind (k a) k') s.
Proof. unfold bind. destruct (m s) as [[a|e] s1]; reflexivity. Qed.

Lemma get_latest_block_number_Ok (n : Z) (s : St) :
  get_latest_block_number (Ok n) s = (Ok (Some n), s).
Proof. reflexivity. Qed.

Lemma listen_body_scanned (env : Env) (s : St) (latest : Z) (evs : list Event) :
  env_block_number env = Ok latest -> (last_processed_block s < latest)%Z ->
  env_entries env (last_processed_block s + 1) latest = Ok evs ->
  listen_body env s
  = after_scan env evs latest (with_trace s (trace s ++ [ALog INFO "Scanning blocks"])).
Proof.
  intros H Hlt He. unfold listen_body. rewrite H.
  rewrite (bind_Ok _ _ _ _ _ (get_latest_block_number_Ok latest s)).
  rewrite (bind_Ok get _ s s s) by reflexivity. cbn beta iota zeta.
  replace (last_processed_block s <? latest)%Z with true
    by (symmetry; apply Z.ltb_lt; lia).
  rewrite He. cbn beta iota.
  rewrite bind_assoc.
  rewrite (bind_Ok (log INFO "Scanning blocks") _ s
             (with_trace s (trace s ++ [ALog INFO "Scanning blocks"])) tt)
    by reflexivity.
  rewrite bind_assoc.
  rewrite (bind_Ok (lift (Ok evs)) _ _ _ evs) by reflexivity.
  rewrite bind_assoc. reflexivity.
Qed.

Lemma after_scan_spec (env : Env) (evs : list Event) (latest : Z) (s : St) :
  let s' := snd (after_scan env evs latest s) in
  poll_interval s' = poll_interval s /\
  (exists k, k <= length evs /\
     handled (trace s') = handled (trace s) ++ map event_key (firstn k evs) /\
     (fst (after_scan env evs latest s) = Ok tt -> k = length evs)) /\
  (fst (after_scan env evs latest s) = Ok tt ->
     last_processed_block s' = latest /\
     sleeps (trace s') = sleeps (trace s) ++ [poll_interval s]) /\
  (forall e, fst (after_scan env evs latest s) = Exc e ->
     last_processed_block s' = last_processed_block s /\
     sleeps (trace s') = sleeps (trace s)).
Proof.
  cbv zeta. unfold after_scan. destruct evs as [|e0 evs'].
  - destruct s as [lpb pi X d tr]. unfold_M. cbn.
    unfold handled, sleeps. rewrite !flat_map_app_single. cbn. rewrite !app_nil_r.
    split; [reflexivity|]. split.
    + exists 0. repeat split; cbn; rewrite ?app_nil_r; reflexivity.
    + split; [intros _; split; reflexivity|]. intros e He. discriminate.
  - set (evs := e0 :: evs').
    change (match evs with [] => _ | _ :: _ => process_events env evs end)
      with (process_events env evs).
    destruct (process_events_spec env evs s) as (Hp & Hl & Hs & k & Hk & Hh & Hok).
    destruct (process_events env evs s) as [[[]|e] s2] eqn:E; cbn [fst snd] in *.
    + rewrite (bind_Ok _ _ _ _ _ E).
      destruct s2 as [lpb pi X d tr]. unfold_M. cbn in *.
      unfold handled, sleeps in *. rewrite !flat_map_app_single. cbn. rewrite !app_nil_r.
      split; [exact Hp|]. split.
      * exists k. repeat split; [lia|exact Hh|intros _; apply Hok; reflexivity].
      * split; [intros _; split; [reflexivity|rewrite Hs, Hp; reflexivity]|].
        intros e He. discriminate.
    + rewrite (bind_Exc _ _ _ _ _ E). cbn [fst snd].
      split; [exact Hp|]. split.
      * exists k. repeat split; [lia|exact Hh|discriminate].
      * split; [discriminate|]. intros e' _. split; assumption.
Qed.

Lemma listen_iter_body_ok (env : Env) (s s' : St) :
  listen_body env s = (Ok tt, s') -> listen_iter env s = (Ok tt, s').
Proof. intros H. unfold listen_iter, try_except. rewrite H. reflexivity. Qed.

Lemma listen_iter_body_exc (env : Env) (s s' : St) (e : exn) :
  listen_body env s = (Exc e, s') -> is_Exception e = true ->
  listen_iter env s
  = (Ok tt, with_trace s' (((trace s'
      ++ [ALog ERROR "An unexpected error occurred in the listener loop"])
      ++ [ALog INFO "Restarting loop"])
      ++ [ASleep (poll_interval s' * 2)])).
Proof.
  intros H He. unfold listen_iter, try_except. rewrite H, He.
  destruct s'. reflexivity.
Qed.

Lemma listen_iter_body_interrupt (env : Env) (s s' : St) (e : exn) :
  listen_body env s = (Exc e, s') -> is_Exception e = false ->
  listen_iter env s = (Exc e, s').
Proof. intros H He. unfold listen_iter, try_except. rewrite H, He. reflexivity. Qed.

Lemma listen_body_spec (env : Env) (s : St) :
  let s' := snd (listen_body env s) in
  poll_interval s' = poll_interval s /\
  (fst (listen_body env s) = Ok tt ->
     sleeps (trace s') = sleeps (trace s) ++ [poll_interval s]) /\
  (forall e, fst (listen_body env s) = Exc e ->
     sleeps (trace s') = sleeps (trace s) /\
     last_processed_block s' = last_processed_block s) /\
  (last_processed_block s' = last_processed_block s \/
   exists latest evs,
     env_block_number env = Ok latest /\
     (last_processed_block s < latest)%Z /\
     env_entries env (last_processed_block s + 1) latest = Ok evs /\
     fst (listen_body env s) = Ok tt /\
     last_processed_block s' = latest /\
     handled (trace s') = handled (trace s) ++ map event_key evs) /\
  (forall latest evs,
     env_block_number env = Ok latest ->
     (last_processed_block s < latest)%Z ->
     env_entries env (last_processed_block s + 1) latest = Ok evs ->
     exists k, k <= length evs /\
       handled (trace s') = handled (trace s) ++ map event_key (firstn k evs) /\
       (fst (listen_body env s) = Ok tt -> k = length evs)).
Proof.
  cbv zeta.
  destruct (env_block_number env) as [latest|e] eqn:Hb.
  - destruct (Z_lt_le_dec (last_processed_block s) latest) as [Hlt|Hle].
    + destruct (env_entries env (last_processed_block s + 1) latest) as [evs|e] eqn:He.
      * rewrite (listen_body_scanned env s latest evs Hb Hlt He).
        set (s1 := with_trace s (trace s ++ [ALog INFO "Scanning blocks"])).
        assert (Hh1 : handled (trace s1) = handled (trace s)).
        { cbn. unfold handled. rewrite flat_map_app_single. cbn. apply app_nil_r. }
        assert (Hs1 : sleeps (trace s1) = sleeps (trace s)).
        { cbn. unfold sleeps. rewrite flat_map_app_single. cbn. apply app_nil_r. }
        destruct (after_scan_spec env evs latest s1) as (Hp & (k & Hk & Hh & Hok) & HOk & HExc).
        rewrite Hh1 in Hh. rewrite Hs1 in HOk, HExc.
        change (poll_interval s1) with (poll_interval s) in Hp, HOk.
        change (last_processed_block s1) with (last_processed_block s) in HExc.
        split; [exact Hp|]. split; [intros Hr; apply (HOk Hr)|]. split.
        { intros e He'. destruct (HExc e He') as [? ?]. split; assumption. }
        split.
        { destruct (fst (after_scan env evs latest s1)) as [[]|e] eqn:Hr.
          - right. exists latest, evs. destruct (HOk eq_refl) as [Hl _].
            repeat split; try assumption.
            rewrite Hh, (Hok eq_refl), firstn_all. reflexivity.
          - left. apply (HExc e eq_refl). }
        intros latest' evs' Hb' _ He'. injection Hb' as <-. rewrite He in He'. injection He' as <-.
        exists k. repeat split; assumption.
      * rewrite (listen_body_scan_fails env s latest e Hb Hlt He). cbn [fst snd].
        unfold with_trace, handled, sleeps. cbn.
        rewrite !flat_map_app_single. cbn. rewrite !app_nil_r.
        split; [reflexivity|]. split; [discriminate|]. split; [intros; split; reflexivity|].
        split; [left; reflexivity|].
        intros latest' evs' Hb' _ He'. injection Hb' as <-. rewrite He in He'. discriminate.
    + rewrite (listen_body_no_new_blocks env s latest Hb Hle). cbn [fst snd].
      unfold with_trace, handled, sleeps. cbn.
      rewrite !flat_map_app_single. cbn. rewrite !app_nil_r.
      split; [reflexivity|]. split; [reflexivity|]. split; [discriminate|].
      split; [left; reflexivity|].
      intros latest' evs' Hb' Hlt' _. injection Hb' as <-. lia.
  - destruct (is_Exception e) eqn:Hx.
    + rewrite (listen_body_height_fails env s e Hb Hx). cbn [fst snd].
      unfold with_trace, handled, sleeps. cbn.
      rewrite !flat_map_app_single. cbn. rewrite !app_nil_r.
      split; [reflexivity|]. split; [reflexivity|]. split; [discriminate|].
      split; [left; reflexivity|].
      intros latest' evs' Hb'. discriminate.
    + rewrite (listen_body_height_interrupt env s e Hb Hx). cbn [fst snd].
      split; [reflexivity|]. split; [discriminate|].
      split; [intros; split; reflexivity|]. split; [left; reflexivity|].
      intros latest' evs' Hb'. discriminate.
Qed.

Lemma listen_iter_spec (env : Env) (s : St) :
  let b := listen_body env s in
  let s' := snd (listen_iter env s) in
  poll_interval s' = poll_interval (snd b) /\
  last_processed_block s' = last_processed_block (snd b) /\
  handled (trace s') = handled (trace (snd b)) /\
  (fst b = Ok tt -> listen_iter env s = b) /\
  (forall e, fst b = Exc e -> is_Exception e = true ->
     fst (listen_iter env s) = Ok tt /\
     sleeps (trace s') = sleeps (trace (snd b)) ++ [(poll_interval (snd b) * 2)%Z]) /\
  (forall e, fst b = Exc e -> is_Exception e = false -> listen_iter env s = b).
Proof.
  cbv zeta. destruct (listen_body env s) as [[[]|e] s1] eqn:E; cbn [fst snd].
  - rewrite (listen_iter_body_ok env s s1 E). cbn [snd].
    repeat split; intros; discriminate.
  - destruct (is_Exception e) eqn:Hx.
    + rewrite (listen_iter_body_exc env s s1 e E Hx). cbn [fst snd].
      unfold with_trace, handled, sleeps. cbn. rewrite !flat_map_app_single. cbn.
      rewrite !app_nil_r.
      split; [reflexivity|]. split; [reflexivity|]. split; [reflexivity|].
      split; [discriminate|]. split.
      * intros e' He' _. injection He' as <-. split; reflexivity.
      * intros e' He'. injection He' as <-. congruence.
    + rewrite (listen_iter_body_interrupt env s s1 e E Hx). cbn [fst snd].
      split; [reflexivity|]. split; [reflexivity|]. split; [reflexivity|].
      split; [discriminate|]. split; [intros e' He' Hx'; injection He' as <-; congruence|].
      intros; reflexivity.
Qed.

(* ------------------------------------------------------------------ *)
(** ** Concrete inputs *)

Definition example_event (tx : string) (b i amount target : Z) : Event :=
  {| transactionHash := tx; blockNumber := b; logIndex := i;
     args := Some {| a_from := Some (PStr "0x5e4d");
                     a_amount := Some (PInt amount);
                     a_toChainId := Some (PInt target) |} |}.

(** A node at height [height] whose scans return [evs], a destination chain
    with id 80001, a gas oracle answering 20 and [_save]s faring as [w]. *)
Definition example_env (w : write_outcome) (height : result Z) (evs : list Event) : Env :=
  {| env_block_number := height;
     env_entries := fun _ _ => Ok evs;
     env_dest_chain_id := fun _ => Ok 80001%Z;
     env_oracle := fun _ => OracleJson (JObj [("result", JObj [("ProposeGasPrice", JStr "20")])]);
     env_write := fun _ => w |}.

(** A listener with poll interval 15, an empty set and no DB file. *)
Definition example_state (lpb : Z) : St := mkSt lpb 15 ∅ None [].

(** The set loaded by a fresh [StateDB] from the file [d]. *)
Definition reloaded (d : option contents) : St := snd (StateDB_init (mkSt 0 15 ∅ d [])).


(** ** C2: sleep durations *)

(** C2 counterexample: the height query fails (the node raises
    [ConnectionError]); the iteration sleeps [poll_interval] = 15 seconds,
    not 2 * 15. *)
Lemma height_failure_sleeps_poll_interval :
  sleeps (trace (snd (listen_iter (example_env WriteOk (Exc ConnectionError) [])
                                  (example_state 10)))) = [15%Z].
Proof. vm_compute. reflexivity. Qed.

(** C2 (as amended).  [poll_interval] is never changed.  When the height
    query fails, the iteration returns normally after sleeping
    [poll_interval]; every iteration whose [try] body completes sleeps
    [poll_interval]; only an exception escaping the body into the
    catch-all handler makes the iteration sleep [2 * poll_interval]. *)
Theorem listen_sleep_durations (env : Env) (s : St) :
  let s' := snd (listen_iter env s) in
  poll_interval s' = poll_interval s /\
  (forall e, env_block_number env = Exc e -> is_Exception e = true ->
     fst (listen_iter env s) = Ok tt /\
     sleeps (trace s') = sleeps (trace s) ++ [poll_interval s]) /\
  (fst (listen_body env s) = Ok tt ->
     sleeps (trace s') = sleeps (trace s) ++ [poll_interval s]) /\
  (forall e, fst (listen_body env s) = Exc e -> is_Exception e = true ->
     sleeps (trace s') = sleeps (trace s) ++ [(2 * poll_interval s)%Z]).
Proof.
  cbv zeta.
  destruct (listen_body_spec env s) as (Hp & HOk & HExc & _ & _).
  destruct (listen_iter_spec env s) as (Hp' & _ & _ & HiOk & HiExc & _).
  split; [rewrite Hp', Hp; reflexivity|]. split; [|split].
  - intros e Hb Hx. rewrite (listen_body_height_fails env s e Hb Hx) in HOk, HiOk.
    cbn [fst] in HOk, HiOk. rewrite (HiOk eq_refl). cbn [fst snd].
    split; [reflexivity|]. apply HOk. reflexivity.
  - intros Hr. rewrite (HiOk Hr). apply HOk. exact Hr.
  - intros e Hr Hx. destruct (HiExc e Hr Hx) as [_ Hs].
    rewrite Hs, (proj1 (HExc e Hr)), Hp. f_equal. f_equal. lia.
Qed.

(** ** C3: what a failed flush leaves behind *)

(** C3 counterexample: the file holds the snapshot {'0xa'}; the [_save] of
    [mark_as_processed('0xb')] fails after [open(path, 'w')] truncated the
    file and before anything was written.  The file is then empty, and a
    fresh instance loads an empty set: '0xa' of the prior snapshot is
    lost. *)
Lemma failed_flush_truncates_snapshot :
  let prior := Some (FTokens (dump_tokens {[KStr "0xa"]})) in
  let s1 := snd (mark_as_processed (example_env (WriteFailsAfter 0) (Ok 12%Z) []) "0xb"
                                   (mkSt 10 15 {[KStr "0xa"]} prior [])) in
  fst (is_processed (KStr "0xa") (reloaded prior)) = Ok true /\
  disk s1 = Some (FTokens []) /\
  fst (is_processed (KStr "0xa") (reloaded (disk s1))) = Ok false.
Proof. vm_compute. repeat split; reflexivity. Qed.

(** C3 (the code falls short of it).  [mark_as_processed] returns normally whatever the
    flush does, and the in-memory set holds the hash from then on: no later
    iteration of [listen] removes anything from it.  A flush that cannot
    open the file leaves the file as it was; a flush that fails while
    writing leaves the file truncated to a prefix of the new text, not
    the prior snapshot. *)
Theorem flush_failure_effects (env : Env) (t : string) (s : St) :
  let s1 := snd (mark_as_processed env t s) in
  fst (mark_as_processed env t s) = Ok tt /\
  KStr t ∈ processed_txs s1 /\
  processed_txs s ⊆ processed_txs s1 /\
  (env_write env t = OpenFails -> disk s1 = disk s) /\
  (forall n, env_write env t = WriteFailsAfter n ->
     disk s1 = Some (FTokens (take n (dump_tokens (processed_txs s1))))) /\
  (forall envs, processed_txs s1 ⊆ processed_txs (snd (listen envs s1))).
Proof.
  cbv zeta. destruct (mark_as_processed_spec env t s) as (Hr & HX & Hd & _).
  split; [exact Hr|]. split; [rewrite HX; set_solver|].
  split; [rewrite HX; set_solver|]. split.
  - intros Hw. rewrite Hd, Hw. reflexivity.
  - split.
    + intros n Hw. rewrite Hd, Hw, HX. reflexivity.
    + intros envs. apply grows_listen.
Qed.

(** ** C6: progress of [last_processed_block] *)

Lemma listen_iter_monotone (env : Env) (s : St) :
  (last_processed_block s <= last_processed_block (snd (listen_iter env s)))%Z.
Proof.
  destruct (listen_body_spec env s) as (_ & _ & _ & Hl & _).
  destruct (listen_iter_spec env s) as (_ & Hl' & _).
  rewrite Hl'. destruct Hl as [Hl|(latest & evs & _ & Hlt & _ & _ & Hl & _)]; lia.
Qed.

Lemma listen_monotone (envs : list Env) :
  forall s, (last_processed_block s <= last_processed_block (snd (listen envs s)))%Z.
Proof.
  induction envs as [|env envs IH]; intros s; [cbn; lia|].
  unfold listen. cbn [for_each]. fold (listen envs). unfold bind.
  pose proof (listen_iter_monotone env s) as Hm.
  destruct (listen_iter env s) as [[[]|e] s1]; cbn [snd] in *; [|exact Hm].
  specialize (IH s1). lia.
Qed.

(** C6.  Over any number of iterations of [listen],
    [last_processed_block] never decreases.  In one iteration it changes
    only when the scan of [last_processed_block + 1 .. latest] succeeded,
    [process_event] was called on every scanned event and the [try] body
    completed; it then becomes [latest].  When the body raises (a scan
    failure or an exception in [process_event] mid-sequence), it is left
    unchanged, so the same range is scanned again. *)
Theorem last_processed_block_progress (env : Env) (s : St) :
  let s' := snd (listen_iter env s) in
  (last_processed_block s <= last_processed_block s')%Z /\
  (forall e, fst (listen_body env s) = Exc e ->
     last_processed_block s' = last_processed_block s) /\
  (last_processed_block s' <> last_processed_block s ->
   exists latest evs,
     env_block_number env = Ok latest /\
     (last_processed_block s < latest)%Z /\
     env_entries env (last_processed_block s + 1) latest = Ok evs /\
     fst (listen_body env s) = Ok tt /\
     last_processed_block s' = latest /\
     handled (trace s') = handled (trace s) ++ map event_key evs) /\
  (forall envs, (last_processed_block s <= last_processed_block (snd (listen envs s)))%Z).
Proof.
  cbv zeta.
  destruct (listen_body_spec env s) as (_ & _ & HExc & Hl & _).
  destruct (listen_iter_spec env s) as (_ & Hl' & Hh' & _).
  split; [apply listen_iter_monotone|]. split.
  - intros e He. rewrite Hl'. apply (proj2 (HExc e He)).
  - split; [|intros envs; apply listen_monotone].
    intros Hne. rewrite Hl' in Hne |- *. rewrite Hh'.
    destruct Hl as [Hl|Hl]; [contradiction|exact Hl].
Qed.

(** ** C8: order of processing *)

(** C8 counterexample: the node returns the log at (block 5, log 1) before
    the one at (block 5, log 0); [listen] hands them to [process_event] in
    that order. *)
Lemma unsorted_entries_processed_in_node_order :
  handled (trace (snd (listen_iter
    (example_env WriteOk (Ok 5%Z)
       [example_event "0xb" 5 1 100 80001; example_event "0xa" 5 0 100 80001])
    (example_state 4))))
  = [(5%Z, 1%Z, "0xb"); (5%Z, 0%Z, "0xa")].
Proof. vm_compute. reflexivity. Qed.

(** C8 (as amended).  [listen] does not sort: the events are handed to
    [process_event] in exactly the order [get_all_entries] returns them
    (a prefix of that list when an exception stops the loop, all of it
    otherwise). *)
Theorem events_handled_in_entries_order (env : Env) (s : St) (latest : Z)
    (evs : list Event)
    (Hb : env_block_number env = Ok latest)
    (Hlt : (last_processed_block s < latest)%Z)
    (He : env_entries env (last_processed_block s + 1) latest = Ok evs) :
  exists k, k <= length evs /\
    handled (trace (snd (listen_iter env s)))
    = handled (trace s) ++ map event_key (firstn k evs) /\
    (fst (listen_body env s) = Ok tt -> k = length evs).
Proof.
  destruct (listen_body_spec env s) as (_ & _ & _ & _ & Hk).
  destruct (listen_iter_spec env s) as (_ & _ & Hh' & _).
  rewrite Hh'. exact (Hk latest evs Hb Hlt He).
Qed.

Lemma events_handled_in_entries_order_witness :
  let evs := [example_event "0xa" 5 0 100 80001; example_event "0xb" 5 1 100 80001] in
  let env := example_env WriteOk (Ok 5%Z) evs in
  let s := example_state 4 in
  env_block_number env = Ok 5%Z /\
  (last_processed_block s < 5)%Z /\
  env_entries env (last_processed_block s + 1) 5 = Ok evs /\
  exists k, k <= length evs /\
    handled (trace (snd (listen_iter env s)))
    = handled (trace s) ++ map event_key (firstn k evs) /\
    (fst (listen_body env s) = Ok tt -> k = length evs).
Proof.
  cbv zeta. split; [reflexivity|]. split; [reflexivity|]. split; [reflexivity|].
  apply (events_handled_in_entries_order _ _ 5%Z); reflexivity.
Defined.

(** ** C9: the height query is total *)

(** C9.  When the node fails with any [Exception],
    [get_latest_block_number] returns [None] instead of raising, and the
    iteration takes the [latest_block is None] branch: it logs, sleeps
    [poll_interval] and returns normally, never reaching the catch-all
    handler. *)
Theorem height_query_never_raises (env : Env) (s : St)
    (H : forall e, env_block_number env = Exc e -> is_Exception e = true) :
  fst (get_latest_block_number (env_block_number env) s)
  = Ok (match env_block_number env with Ok n => Some n | Exc _ => None end) /\
  ((exists e, env_block_number env = Exc e) ->
   fst (listen_body env s) = Ok tt /\
   listen_iter env s = listen_body env s /\
   trace (snd (listen_iter env s))
   = ((trace s ++ [ALog ERROR "Failed to get latest block number."])
      ++ [ALog WARNING "Could not get latest block. Retrying in {self.poll_interval}s..."])
      ++ [ASleep (poll_interval s)]).
Proof.
  split.
  - destruct (env_block_number env) as [n|e] eqn:Hb; [reflexivity|].
    unfold get_latest_block_number, try_except. cbn. rewrite (H e eq_refl). reflexivity.
  - intros (e & Hb). pose proof (H e Hb) as Hx.
    pose proof (listen_body_height_fails env s e Hb Hx) as Hbody.
    rewrite (listen_iter_body_ok env s _ Hbody), Hbody. cbn [fst snd].
    split; [reflexivity|]. split; reflexivity.
Qed.

Lemma height_query_never_raises_witness :
  let env := example_env WriteOk (Exc ConnectionError) [] in
  (forall e, env_block_number env = Exc e -> is_Exception e = true) /\
  fst (get_latest_block_number (env_block_number env) (example_state 10))
  = Ok (match env_block_number env with Ok n => Some n | Exc _ => None end) /\
  ((exists e, env_block_number env = Exc e) ->
   fst (listen_body env (example_state 10)) = Ok tt /\
   listen_iter env (example_state 10) = listen_body env (example_state 10) /\
   trace (snd (listen_iter env (example_state 10)))
   = ((trace (example_state 10) ++ [ALog ERROR "Failed to get latest block number."])
      ++ [ALog WARNING "Could not get latest block. Retrying in {self.poll_interval}s..."])
      ++ [ASleep (poll_interval (example_state 10))]).
Proof.
  cbv zeta.
  assert (H : forall e, env_block_number (example_env WriteOk (Exc ConnectionError) [])
                        = Exc e -> is_Exception e = true).
  { intros e He. injection He as <-. reflexivity. }
  split; [exact H|]. exact (height_query_never_raises _ _ H).
Defined.

(* ------------------------------------------------------------------ *)
(** ** C4: events for another chain *)

(** [process_event] on an event whose arguments fail the [all(...)] check:
    one log line, or two when the hash is new, and nothing else. *)
Lemma process_event_malformed (env : Env) (e : Event) (s : St) :
  truthy (arg_get (args e) a_from) && truthy (arg_get (args e) a_amount)
    && truthy (arg_get (args e) a_toChainId) = false ->
  exists tr, process_event env e s
             = (Ok tt, mkSt (last_processed_block s) (poll_interval s)
                            (processed_txs s) (disk s) (trace s ++ tr)) /\
             dispatches tr = [].
Proof.
  intros Hm. destruct s as [lpb pi X d t].
  unfold process_event, is_processed. cbv zeta. unfold_M. cbn [fst snd processed_txs trace].
  destruct (bool_decide (KStr (transactionHash e) ∈ X)).
  - eexists. split; [reflexivity|reflexivity].
  - rewrite Hm. cbn. eexists. split.
    + rewrite emit_eq. cbn [last_processed_block poll_interval processed_txs disk trace]. rewrite <- ?app_assoc. reflexivity.
    + reflexivity.
Qed.

Lemma process_event_wrong_chain (env : Env) (e : Event) (s : St) (dest : Z) :
  env_dest_chain_id env (transactionHash e) = Ok dest ->
  py_ne (arg_get (args e) a_toChainId) dest = true ->
  exists tr, process_event env e s
             = (Ok tt, mkSt (last_processed_block s) (poll_interval s)
                            (processed_txs s) (disk s) (trace s ++ tr)) /\
             dispatches tr = [].
Proof.
  intros Hd Hne.
  destruct (truthy (arg_get (args e) a_from) && truthy (arg_get (args e) a_amount)
              && truthy (arg_get (args e) a_toChainId)) eqn:Hm;
    [|exact (process_event_malformed env e s Hm)].
  destruct s as [lpb pi X d t].
  unfold process_event, is_processed. cbv zeta. unfold_M. cbn [fst snd processed_txs trace].
  destruct (bool_decide (KStr (transactionHash e) ∈ X)).
  - eexists. split; [reflexivity|reflexivity].
  - rewrite Hm. cbn [negb]. rewrite Hd. unfold_M. cbn -[py_ne arg_get]. rewrite Hne. eexists. split.
    + unfold_M. cbn [last_processed_block poll_interval processed_txs disk trace]. rewrite <- ?app_assoc. reflexivity.
    + reflexivity.
Qed.

Lemma dispatches_app_silent (t tr : list action) :
  dispatches tr = [] -> dispatches (t ++ tr) = dispatches t.
Proof. intros H. unfold dispatches in *. rewrite flat_map_app, H, app_nil_r. reflexivity. Qed.

(** C4.  An event whose [from], [amount] and [toChainId] are all present
    (truthy) but whose [toChainId] differs from the destination chain's id
    is processed without an exception, without a dispatch and without a
    change to the dedup set or to the file. *)
Theorem wrong_chain_not_dispatched (env : Env) (e : Event) (s : St) (dest : Z)
    (Hfrom : truthy (arg_get (args e) a_from) = true)
    (Hamount : truthy (arg_get (args e) a_amount) = true)
    (Htarget : truthy (arg_get (args e) a_toChainId) = true)
    (Hdest : env_dest_chain_id env (transactionHash e) = Ok dest)
    (Hne : py_ne (arg_get (args e) a_toChainId) dest = true) :
  let s' := snd (process_event env e s) in
  fst (process_event env e s) = Ok tt /\
  processed_txs s' = processed_txs s /\
  disk s' = disk s /\
  dispatches (trace s') = dispatches (trace s).
Proof.
  cbv zeta. destruct (process_event_wrong_chain env e s dest Hdest Hne) as (tr & -> & Htr).
  cbn [fst snd processed_txs disk trace].
  split; [reflexivity|]. split; [reflexivity|]. split; [reflexivity|].
  apply dispatches_app_silent, Htr.
Qed.

Lemma wrong_chain_not_dispatched_witness :
  let e := example_event "0xc" 7 0 100 5 in
  let env := example_env WriteOk (Ok 7%Z) [e] in
  let s := example_state 6 in
  truthy (arg_get (args e) a_from) = true /\
  truthy (arg_get (args e) a_amount) = true /\
  truthy (arg_get (args e) a_toChainId) = true /\
  env_dest_chain_id env (transactionHash e) = Ok 80001%Z /\
  py_ne (arg_get (args e) a_toChainId) 80001 = true /\
  (fst (process_event env e s) = Ok tt /\
   processed_txs (snd (process_event env e s)) = processed_txs s /\
   disk (snd (process_event env e s)) = disk s /\
   dispatches (trace (snd (process_event env e s))) = dispatches (trace s)).
Proof.
  cbv zeta.
  split; [reflexivity|]. split; [reflexivity|]. split; [reflexivity|].
  split; [reflexivity|]. split; [reflexivity|].
  apply (wrong_chain_not_dispatched _ _ _ 80001%Z); reflexivity.
Defined.

(* ------------------------------------------------------------------ *)
(** ** C5: malformed events *)

(** C5.  An event in which one of [from], [amount], [toChainId] is absent
    or falsy ([None], [0], [''])  is not dispatched and not marked: the
    call returns normally with the set, the file and the dispatches
    unchanged, and the loop goes on with the next event from a state with
    the same set and file. *)
Theorem malformed_event_skipped (env : Env) (e : Event) (s : St)
    (Hm : truthy (arg_get (args e) a_from) && truthy (arg_get (args e) a_amount)
          && truthy (arg_get (args e) a_toChainId) = false) :
  let s' := snd (process_event env e s) in
  (fst (process_event env e s) = Ok tt /\
   processed_txs s' = processed_txs s /\
   disk s' = disk s /\
   dispatches (trace s') = dispatches (trace s)) /\
  (forall es : list Event, exists s1,
   process_events env (e :: es) s = process_events env es s1 /\
   processed_txs s1 = processed_txs s /\
   disk s1 = disk s /\
   dispatches (trace s1) = dispatches (trace s)).
Proof.
  cbv zeta. destruct (process_event_malformed env e s Hm) as (tr & Hp & Htr).
  rewrite Hp. cbn [fst snd processed_txs disk trace].
  split.
  - split; [reflexivity|]. split; [reflexivity|]. split; [reflexivity|].
    apply dispatches_app_silent, Htr.
  - intros es. unfold process_events. cbn [for_each].
    rewrite bind_assoc, (bind_Ok _ _ s _ tt (emit_eq _ s)).
    set (s0 := mkSt (last_processed_block s) (poll_interval s) (processed_txs s) (disk s)
                    (trace s ++ [AHandle (blockNumber e) (logIndex e) (transactionHash e)])).
    destruct (process_event_malformed env e s0 Hm) as (tr0 & Hp0 & Htr0).
    rewrite (bind_Ok _ _ s0 _ tt Hp0).
    eexists. split; [reflexivity|]. cbn [processed_txs disk trace s0].
    split; [reflexivity|]. split; [reflexivity|].
    rewrite dispatches_app_silent by exact Htr0.
    unfold dispatches. rewrite flat_map_app_single. cbn. apply app_nil_r.
Qed.

Lemma malformed_event_skipped_witness :
  let e := {| transactionHash := "0xd"; blockNumber := 7; logIndex := 0;
              args := Some {| a_from := Some (PStr "0x5e4d"); a_amount := None;
                              a_toChainId := Some (PInt 80001) |} |} in
  let env := example_env WriteOk (Ok 7%Z) [e] in
  let s := example_state 6 in
  truthy (arg_get (args e) a_from) && truthy (arg_get (args e) a_amount)
    && truthy (arg_get (args e) a_toChainId) = false /\
  ((fst (process_event env e s) = Ok tt /\
    processed_txs (snd (process_event env e s)) = processed_txs s /\
    disk (snd (process_event env e s)) = disk s /\
    dispatches (trace (snd (process_event env e s))) = dispatches (trace s)) /\
   (forall es : list Event, exists s1,
    process_events env (e :: es) s = process_events env es s1 /\
    processed_txs s1 = processed_txs s /\
    disk s1 = disk s /\
    dispatches (trace s1) = dispatches (trace s))).
Proof.
  cbv zeta. split; [reflexivity|].
  apply malformed_event_skipped; reflexivity.
Defined.

(* ------------------------------------------------------------------ *)
(** ** C7: loading the DB file at start-up *)

(** A DB file that is not UTF-8 text: [open(path, 'r')] decodes it while
    [json.load] reads, and [UnicodeDecodeError] is not among the caught
    exceptions. *)
Definition undecodable_file : option contents := Some FUndecodable.

(** A DB file holding the valid JSON text [[]]: a list has no [.get]. *)
Definition list_file : option contents := Some (FTokens [TLBrack; TRBrack]).

(** A DB file holding [{"processed_txs": 5}]: [set(5)] raises [TypeError]. *)
Definition number_file : option contents :=
  Some (FTokens [TLBrace; TStr "processed_txs"; TColon; TNum 5; TRBrace]).

(** C7 (the code falls short of it).  With no file, [StateDB.__init__]
    starts from the empty set; a file [json.load] rejects is logged and
    also gives the empty set; but a file that cannot be decoded as text, or
    whose JSON is not a dict of an iterable, makes [__init__] raise, so
    start-up fails. *)
Theorem corrupt_db_file_fails_startup (lpb pi : Z) (X : gset pykey) (tr : list action) :
  StateDB_init (mkSt lpb pi X None tr)
  = (Ok tt, mkSt lpb pi ∅ None (tr ++ [ALog INFO "StateDB initialized."])) /\
  StateDB_init (mkSt lpb pi X (Some FLexError) tr)
  = (Ok tt, mkSt lpb pi ∅ (Some FLexError)
                 (tr ++ [ALog ERROR "Error loading state DB file. Starting with an empty state.";
                         ALog INFO "StateDB initialized."])) /\
  StateDB_init (mkSt lpb pi X undecodable_file tr)
  = (Exc UnicodeDecodeError, mkSt lpb pi X undecodable_file tr) /\
  StateDB_init (mkSt lpb pi X list_file tr)
  = (Exc AttributeError, mkSt lpb pi X list_file tr) /\
  StateDB_init (mkSt lpb pi X number_file tr)
  = (Exc TypeError, mkSt lpb pi X number_file tr).
Proof.
  unfold StateDB_init, _load. unfold_M. cbn.
  split; [reflexivity|]. split; [rewrite emit_eq; cbn; rewrite <- app_assoc; reflexivity|].
  repeat split; reflexivity.
Qed.

(* ------------------------------------------------------------------ *)
(** ** C10: enforce_types on well-typed calls *)

(** [def f(x: int) -> None: return None] *)
Definition none_returning : Decorators.PyFunc :=
  {| Decorators.fparams :=
       [{| Decorators.pname := "x"; Decorators.pann := Some (Decorators.AClass Decorators.CInt);
           Decorators.pkind := Decorators.Positional None |}];
     Decorators.freturn := Some Decorators.ANoneConst;
     Decorators.fbody := fun _ => Ok Decorators.VNone |}.

(** [def g( *args: int) -> int: return 3] *)
Definition varargs_int : Decorators.PyFunc :=
  {| Decorators.fparams :=
       [{| Decorators.pname := "args"; Decorators.pann := Some (Decorators.AClass Decorators.CInt);
           Decorators.pkind := Decorators.VarPositional |}];
     Decorators.freturn := Some (Decorators.AClass Decorators.CInt);
     Decorators.fbody := fun _ => Ok (Decorators.VInt 3) |}.

(** Arguments whose check fails stop the call before the body runs;
    unannotated parameters are skipped by the check. *)
Lemma enforce_types_check_fails (f : Decorators.PyFunc) (args : list Decorators.pyobj)
    (bound : list (string * Decorators.pyobj)) (e : exn) :
  Decorators.bind_args (Decorators.fparams f) args = Ok bound ->
  Decorators.check_args (Decorators.fparams f) bound = Exc e ->
  Decorators.enforce_types f args = (Exc e, false).
Proof. intros Hb Hc. unfold Decorators.enforce_types. rewrite Hb, Hc. reflexivity. Qed.

Lemma check_args_unannotated (ps : list Decorators.Param) (name : string)
    (v : Decorators.pyobj) (r : list (string * Decorators.pyobj)) :
  Decorators.annotation_of ps name = None ->
  Decorators.check_args ps ((name, v) :: r) = Decorators.check_args ps r.
Proof. intros H. cbn. rewrite H. reflexivity. Qed.

(** C10 (the code falls short of it).  [f(1)] for [f(x: int) -> None]
    returns [None] undecorated, and both [1] and the result match their
    annotations in the sense of PEP 484; the decorated call raises
    [TypeError] after running the body, because [isinstance(None, None)]
    is itself an error.  Likewise [g(1, 2)] for [g( *args: int)]: each
    argument is an int, but the wrapper tests the whole tuple against
    [int] and raises [TypeError] before the body. *)
Theorem enforce_types_rejects_well_typed_calls :
  (Decorators.call none_returning [Decorators.VInt 1] = Ok Decorators.VNone /\
   Decorators.hint_matches (Decorators.VInt 1) (Decorators.AClass Decorators.CInt) = true /\
   Decorators.hint_matches Decorators.VNone Decorators.ANoneConst = true /\
   Decorators.enforce_types none_returning [Decorators.VInt 1] = (Exc TypeError, true)) /\
  (Decorators.call varargs_int [Decorators.VInt 1; Decorators.VInt 2] = Ok (Decorators.VInt 3) /\
   Forall (fun v => Decorators.hint_matches v (Decorators.AClass Decorators.CInt) = true)
     [Decorators.VInt 1; Decorators.VInt 2] /\
   Decorators.hint_matches (Decorators.VInt 3) (Decorators.AClass Decorators.CInt) = true /\
   Decorators.enforce_types varargs_int [Decorators.VInt 1; Decorators.VInt 2]
   = (Exc TypeError, false)).
Proof.
  split.
  - repeat split; reflexivity.
  - split; [reflexivity|]. split; [repeat constructor|]. split; reflexivity.
Qed.

(* ================================================================== *)
(** * Further properties of the listener *)

(** ** The gas oracle *)

(** What [_get_current_gas_price_from_oracle] returns and logs for an
    oracle outcome. *)
Definition oracle_result (o : oracle_outcome) : result (option json) :=
  match o with
  | OracleRaises e => if is_RequestException e then Ok None else Exc e
  | OracleJson j =>
      match dict_get j "result" (JObj []) with
      | Ok r => dict_get_opt r "ProposeGasPrice"
      | Exc e => Exc e
      end
  end.

Definition oracle_log (o : oracle_outcome) : list action :=
  match o with
  | OracleRaises e =>
      if is_RequestException e then [ALog WARNING "Could not fetch gas price from oracle."]
      else []
  | OracleJson _ => []
  end.

Definition oracle_ok (o : oracle_outcome) : bool :=
  match oracle_result o with Ok _ => true | Exc _ => false end.

Lemma oracle_eq (o : oracle_outcome) (s : St) :
  _get_current_gas_price_from_oracle o s
  = (oracle_result o, with_trace s (trace s ++ oracle_log o)).
Proof.
  destruct s as [lpb pi X d tr].
  unfold _get_current_gas_price_from_oracle, oracle_result, oracle_log. unfold_M.
  destruct o as [j|e]; cbn.
  - unfold with_trace. cbn. rewrite app_nil_r.
    destruct j as [| | | | |kvs]; try reflexivity. cbn.
    destruct (assoc_last "result" kvs None) as [r|]; cbn; [destruct r|]; reflexivity.
  - destruct e; cbn; unfold with_trace; cbn; rewrite ?app_nil_r; reflexivity.
Qed.

(** ** When [process_event] dispatches *)

(** The checks [process_event] makes before calling the oracle, in their
    order: the hash is new, [from], [amount] and [toChainId] are truthy,
    the destination chain id is read and equals [toChainId], and
    [Web3.from_wei(amount)] does not raise. *)
Definition pre_oracle_ok (env : Env) (e : Event) (s : St) : bool :=
  let a := args e in
  negb (bool_decide (KStr (transactionHash e) ∈ processed_txs s)) &&
  (truthy (arg_get a a_from) && truthy (arg_get a a_amount) && truthy (arg_get a a_toChainId)) &&
  match env_dest_chain_id env (transactionHash e) with
  | Ok d => negb (py_ne (arg_get a a_toChainId) d)
  | Exc _ => false
  end &&
  match from_wei (arg_get a a_amount) with Ok _ => true | Exc _ => false end.

(** ... and the oracle call does not raise. *)
Definition dispatch_conditions (env : Env) (e : Event) (s : St) : bool :=
  pre_oracle_ok env e s && oracle_ok (env_oracle env (transactionHash e)).

Lemma dispatches_app_single_log (tr : list action) (l : level) (m : string) :
  dispatches (tr ++ [ALog l m]) = dispatches tr.
Proof. unfold dispatches. rewrite flat_map_app_single. cbn. apply app_nil_r. Qed.

Lemma dispatches_oracle_log (tr : list action) (o : oracle_outcome) :
  dispatches (tr ++ oracle_log o) = dispatches tr.
Proof.
  destruct o as [j|e]; cbn; [rewrite app_nil_r; reflexivity|].
  destruct (is_RequestException e); [apply dispatches_app_single_log|rewrite app_nil_r; reflexivity].
Qed.

Lemma process_event_spec (env : Env) (e : Event) (s : St) :
  let t := transactionHash e in
  let s' := snd (process_event env e s) in
  (dispatch_conditions env e s = true ->
     fst (process_event env e s) = Ok tt /\
     dispatches (trace s') = dispatches (trace s) ++ [t] /\
     processed_txs s' = {[KStr t]} ∪ processed_txs s /\
     disk s' = saved_disk (env_write env t) ({[KStr t]} ∪ processed_txs s) (disk s)) /\
  (dispatch_conditions env e s = false ->
     dispatches (trace s') = dispatches (trace s) /\
     processed_txs s' = processed_txs s /\
     disk s' = disk s /\
     (pre_oracle_ok env e s = true ->
        fst (process_event env e s) = Exc (match oracle_result (env_oracle env t) with
                                           | Exc x => x | Ok _ => TypeError end))).
Proof.
  destruct s as [lpb pi X d tr].
  unfold dispatch_conditions, pre_oracle_ok, process_event, is_processed. cbv zeta.
  unfold_M. cbn [fst snd processed_txs trace disk].
  destruct (bool_decide (KStr (transactionHash e) ∈ X)); cbn [negb andb].
  { split; [discriminate|]. intros _. cbn. rewrite dispatches_app_single_log.
    repeat split; discriminate. }
  destruct (truthy (arg_get (args e) a_from) && truthy (arg_get (args e) a_amount)
            && truthy (arg_get (args e) a_toChainId)); cbn [negb andb].
  2: { split; [discriminate|]. intros _. unfold_M. cbn.
       rewrite !dispatches_app_single_log. repeat split; discriminate. }
  destruct (env_dest_chain_id env (transactionHash e)) as [dst|x]; cbn [andb].
  2: { split; [discriminate|]. intros _. unfold_M. cbn.
       rewrite !dispatches_app_single_log. repeat split; discriminate. }
  unfold_M. cbn -[py_ne from_wei _get_current_gas_price_from_oracle mark_as_processed].
  destruct (py_ne (arg_get (args e) a_toChainId) dst); cbn [negb andb].
  { split; [discriminate|]. intros _. cbn.
    rewrite !dispatches_app_single_log. repeat split; discriminate. }
  destruct (from_wei (arg_get (args e) a_amount)) as [[]|x]; cbn [andb].
  2: { split; [discriminate|]. intros _. cbn.
       rewrite !dispatches_app_single_log. repeat split; discriminate. }
  cbn -[_get_current_gas_price_from_oracle mark_as_processed].
  rewrite oracle_eq. unfold oracle_ok.
  destruct (oracle_result (env_oracle env (transactionHash e))) as [g|x]; cbn [andb].
  - split; [|discriminate]. intros _.
    cbn -[mark_as_processed].
    match goal with
    | |- context [mark_as_processed ?en ?tx ?st] =>
        destruct (mark_as_processed_spec en tx st) as (Hr & HX & Hd & _ & _ & Hdp & _);
        destruct (mark_as_processed en tx st) as [r s2]
    end.
    cbn [fst snd] in *. subst r. cbn in HX, Hd, Hdp.
    rewrite Hdp, HX, Hd. unfold dispatches.
    rewrite !flat_map_app, ?flat_map_app_single. cbn.
    fold (dispatches tr). rewrite ?app_nil_r.
    assert (flat_map (fun a => match a with ADispatch tx => [tx] | _ => [] end)
              (oracle_log (env_oracle env (transactionHash e))) = []) as Ho.
    { destruct (env_oracle env (transactionHash e)) as [j|y]; [reflexivity|].
      cbn. destruct (is_RequestException y); reflexivity. }
    rewrite Ho. cbn. rewrite app_nil_r. repeat split; reflexivity.
  - split; [discriminate|]. intros _. cbn.
    rewrite dispatches_oracle_log, !dispatches_app_single_log.
    repeat split. 
Qed.

(** ** No transaction is dispatched twice *)

(** Over a run started with the set [X0] loaded: the dispatched hashes
    are pairwise distinct, each of them is in the set, none of them was in
    [X0], and the set still contains [X0]. *)
Definition dispatch_inv (X0 : gset pykey) (s : St) : Prop :=
  NoDup (dispatches (trace s)) /\ X0 ⊆ processed_txs s /\
  (forall t, In t (dispatches (trace s)) -> KStr t ∈ processed_txs s /\ KStr t ∉ X0).

Definition inv_step (X0 : gset pykey) (s s' : St) : Prop :=
  dispatch_inv X0 s -> dispatch_inv X0 s'.

Global Instance inv_step_refl (X0 : gset pykey) : Reflexive (inv_step X0).
Proof. intros s H. exact H. Qed.
Global Instance inv_step_trans (X0 : gset pykey) : Transitive (inv_step X0).
Proof. intros s1 s2 s3 H1 H2 H. apply H2, H1, H. Qed.

Lemma inv_emit (X0 : gset pykey) (a : action) :
  (forall t, a <> ADispatch t) -> preserved (inv_step X0) (emit a).
Proof.
  intros Ha s H. rewrite emit_eq. unfold dispatch_inv in *. cbn [snd trace processed_txs].
  assert (E : dispatches (trace s ++ [a]) = dispatches (trace s)).
  { unfold dispatches. rewrite flat_map_app_single.
    destruct a; cbn; rewrite ?app_nil_r; try reflexivity. exfalso; eapply Ha; reflexivity. }
  rewrite E. exact H.
Qed.

Lemma inv_log (X0 : gset pykey) (l : level) (m : string) : preserved (inv_step X0) (log l m).
Proof. apply inv_emit. discriminate. Qed.
Lemma inv_sleep (X0 : gset pykey) (n : Z) : preserved (inv_step X0) (sleep n).
Proof. apply inv_emit. discriminate. Qed.
Lemma inv_handle (X0 : gset pykey) (b i : Z) (t : string) :
  preserved (inv_step X0) (emit (AHandle b i t)).
Proof. apply inv_emit. discriminate. Qed.
Lemma inv_set_last_processed_block (X0 : gset pykey) (n : Z) :
  preserved (inv_step X0) (set_last_processed_block n).
Proof. intros s H. exact H. Qed.

Lemma inv_process_event (X0 : gset pykey) (env : Env) (e : Event) :
  preserved (inv_step X0) (process_event env e).
Proof.
  intros s (Hnd & Hsub & Hin).
  destruct (process_event_spec env e s) as [Hyes Hno]. cbv zeta in Hyes, Hno.
  destruct (dispatch_conditions env e s) eqn:Hc.
  - destruct (Hyes eq_refl) as (_ & Hd & HX & _).
    assert (Hnew : KStr (transactionHash e) ∉ processed_txs s).
    { unfold dispatch_conditions, pre_oracle_ok in Hc.
      apply andb_true_iff in Hc as [Hc _]. apply andb_true_iff in Hc as [Hc _].
      apply andb_true_iff in Hc as [Hc _]. apply andb_true_iff in Hc as [Hc _].
      apply negb_true_iff, bool_decide_eq_false in Hc. exact Hc. }
    unfold dispatch_inv. rewrite Hd, HX. split; [|split].
    + apply NoDup_app. split; [exact Hnd|]. split; [|apply NoDup_singleton].
      intros t Ht Ht'. apply list_elem_of_singleton in Ht'.
      subst t. apply Hnew, (proj1 (Hin _ (proj1 (list_elem_of_In _ _) Ht))).
    + set_solver.
    + intros t Ht. apply in_app_or in Ht as [Ht|[<-|[]]].
      * destruct (Hin t Ht) as [H1 H2]. split; [set_solver|exact H2].
      * split; [set_solver|]. intros Hx. apply Hnew. set_solver.
  - destruct (Hno eq_refl) as (Hd & HX & _).
    unfold dispatch_inv. rewrite Hd, HX. split; [exact Hnd|]. split; assumption.
Qed.

#[global] Hint Resolve inv_log inv_sleep inv_handle inv_set_last_processed_block : preserved.

Lemma inv_get_latest_block_number (X0 : gset pykey) (r : result Z) :
  preserved (inv_step X0) (get_latest_block_number r).
Proof. unfold get_latest_block_number. preserved_tac. Qed.

#[global] Hint Resolve inv_process_event inv_get_latest_block_number : preserved.

Lemma inv_listen (X0 : gset pykey) (envs : list Env) : preserved (inv_step X0) (listen envs).
Proof. unfold listen, listen_iter, listen_body, process_events. preserved_tac. Qed.

(** ** An oracle failure the oracle call does not catch stalls the listener *)

Lemma pre_oracle_ok_set (env : Env) (e : Event) (s s' : St) :
  processed_txs s' = processed_txs s -> pre_oracle_ok env e s' = pre_oracle_ok env e s.
Proof. intros H. unfold pre_oracle_ok. rewrite H. reflexivity. Qed.

Lemma sleeps_app_single_log (tr : list action) (l : level) (m : string) :
  sleeps (tr ++ [ALog l m]) = sleeps tr.
Proof. unfold sleeps. rewrite flat_map_app_single. cbn. apply app_nil_r. Qed.

Lemma stalled_iter (env : Env) (s : St) (latest : Z) (e : Event) (es : list Event) (x : exn) :
  env_block_number env = Ok latest ->
  (last_processed_block s < latest)%Z ->
  env_entries env (last_processed_block s + 1) latest = Ok (e :: es) ->
  pre_oracle_ok env e s = true ->
  oracle_result (env_oracle env (transactionHash e)) = Exc x ->
  is_Exception x = true ->
  let s' := snd (listen_iter env s) in
  fst (listen_iter env s) = Ok tt /\
  last_processed_block s' = last_processed_block s /\
  poll_interval s' = poll_interval s /\
  processed_txs s' = processed_txs s /\
  disk s' = disk s /\
  dispatches (trace s') = dispatches (trace s) /\
  sleeps (trace s') = sleeps (trace s) ++ [(2 * poll_interval s)%Z].
Proof.
  intros Hb Hlt He Hpre Ho Hx. cbv zeta.
  set (s1 := with_trace s (trace s ++ [ALog INFO "Scanning blocks"])).
  set (s2 := snd (emit (AHandle (blockNumber e) (logIndex e) (transactionHash e)) s1)).
  assert (E2 : emit (AHandle (blockNumber e) (logIndex e) (transactionHash e)) s1 = (Ok tt, s2))
    by reflexivity.
  destruct (process_event_spec env e s2) as [_ Hno]. cbv zeta in Hno.
  destruct (stable_process_event env e s2) as (Hp3 & Hl3 & Hs3 & _).
  assert (Hpre2 : pre_oracle_ok env e s2 = true)
    by (rewrite (pre_oracle_ok_set env e s s2); [exact Hpre|reflexivity]).
  assert (Hc : dispatch_conditions env e s2 = false).
  { unfold dispatch_conditions, oracle_ok. rewrite Hpre2, Ho. reflexivity. }
  destruct (Hno Hc) as (Hd3 & HX3 & Hk3 & Hr3). specialize (Hr3 Hpre2). rewrite Ho in Hr3.
  destruct (process_event env e s2) as [r s3] eqn:E3. cbn [fst snd] in *. subst r.
  assert (Hpe : process_events env (e :: es) s1 = (Exc x, s3)).
  { unfold process_events. cbn [for_each]. rewrite bind_assoc, (bind_Ok _ _ _ _ tt E2).
    apply (bind_Exc _ _ _ _ _ E3). }
  assert (Hbody : listen_body env s = (Exc x, s3)).
  { rewrite (listen_body_scanned env s latest (e :: es) Hb Hlt He). fold s1.
    unfold after_scan. cbv beta iota. apply (bind_Exc _ _ _ _ _ Hpe). }
  rewrite (listen_iter_body_exc env s s3 x Hbody Hx). cbn [fst snd]. unfold with_trace.
  cbn [last_processed_block poll_interval processed_txs disk trace] in *.
  unfold dispatches at 1, sleeps at 1. rewrite !flat_map_app_single. cbn.
  rewrite !app_nil_r. fold (dispatches (trace s3)) (sleeps (trace s3)).
  assert (Hs2 : sleeps (trace s2) = sleeps (trace s)).
  { cbn. unfold sleeps. rewrite !flat_map_app_single. cbn. rewrite !app_nil_r. reflexivity. }
  assert (Hd2 : dispatches (trace s2) = dispatches (trace s)).
  { cbn. rewrite <- app_assoc. unfold dispatches. rewrite flat_map_app. cbn.
    rewrite app_nil_r. reflexivity. }
  split; [reflexivity|]. split; [exact Hl3|]. split; [exact Hp3|].
  split; [exact HX3|]. split; [exact Hk3|]. split; [rewrite Hd3; exact Hd2|].
  rewrite Hs3, Hs2, Hp3. change (poll_interval s2) with (poll_interval s). f_equal. f_equal. lia.
Qed.

(** ** A truncated DB file is rejected by [json.load] *)










(** ** C1: dedup idempotence *)





(** ** The argument check of [enforce_types] *)

Lemma bind_args_error (ps : list Decorators.Param) (args : list Decorators.pyobj) (e : exn) :
  Decorators.bind_args ps args = Exc e -> e = TypeError.
Proof.
  revert args. induction ps as [|p ps IH]; intros args H; cbn in H.
  - destruct args; congruence.
  - destruct (Decorators.pkind p) as [d|].
    + destruct args as [|a args']; [destruct d as [v|]|].
      * destruct (Decorators.bind_args ps []) eqn:E; [discriminate|].
        injection H as <-. exact (IH _ E).
      * congruence.
      * destruct (Decorators.bind_args ps args') eqn:E; [discriminate|].
        injection H as <-. exact (IH _ E).
    + destruct (Decorators.bind_args ps []) eqn:E; [discriminate|].
      injection H as <-. exact (IH _ E).
Qed.

(** An argument check that fails raises [TypeError], or [AttributeError]
    when the failing annotation is an [X | Y] union or a tuple. *)
Lemma check_args_exn (ps : list Decorators.Param) (bound : list (string * Decorators.pyobj))
    (e : exn) :
  Decorators.check_args ps bound = Exc e ->
  e = TypeError \/
  (e = AttributeError /\
   exists n cs, Decorators.annotation_of ps n = Some (Decorators.AUnionType cs) \/
                Decorators.annotation_of ps n = Some (Decorators.ATuple cs)).
Proof.
  induction bound as [|[n v] bound IH]; cbn; [discriminate|].
  destruct (Decorators.annotation_of ps n) as [a|] eqn:Ha; [|exact IH].
  destruct a as [c| |name|str|cs|cs|cs]; cbn.
  - destruct (Decorators.issubclass _ _); [exact IH|].
    intros H. injection H as <-. left. reflexivity.
  - intros H. injection H as <-. left. reflexivity.
  - intros H. injection H as <-. left. reflexivity.
  - intros H. injection H as <-. left. reflexivity.
  - destruct (existsb _ _); [exact IH|].
    intros H. injection H as <-. left. reflexivity.
  - destruct (existsb _ _); [exact IH|].
    intros H. injection H as <-. right. split; [reflexivity|].
    exists n, cs. left. exact Ha.
  - destruct (existsb _ _); [exact IH|].
    intros H. injection H as <-. right. split; [reflexivity|].
    exists n, cs. right. exact Ha.
Qed.

Lemma annotation_of_in (ps : list Decorators.Param) (n : string) (a : Decorators.ann) :
  Decorators.annotation_of ps n = Some a -> exists p, In p ps /\ Decorators.pann p = Some a.
Proof.
  induction ps as [|p ps IH]; cbn; [discriminate|].
  destruct (String.eqb (Decorators.pname p) n).
  - intros H. exists p. split; [left; reflexivity|exact H].
  - intros H. destruct (IH H) as (p' & Hin & Hp). exists p'. split; [right; exact Hin|exact Hp].
Qed.

Lemma check_args_ok_iff (ps : list Decorators.Param) (bound : list (string * Decorators.pyobj)) :
  Decorators.check_args ps bound = Ok tt <->
  (forall n v a, In (n, v) bound -> Decorators.annotation_of ps n = Some a ->
                 Decorators.isinstance v a = Ok true).
Proof.
  induction bound as [|[n v] bound IH]; cbn.
  - split; [intros _ n v a []|reflexivity].
  - destruct (Decorators.annotation_of ps n) as [a|] eqn:Ha.
    + destruct (Decorators.isinstance v a) as [[]|x] eqn:Hi.
      * rewrite IH. split.
        -- intros H n' v' a' [Heq|Hin] Ha'; [|exact (H _ _ _ Hin Ha')].
           injection Heq as <- <-. congruence.
        -- intros H n' v' a' Hin Ha'. exact (H _ _ _ (or_intror Hin) Ha').
      * split; [discriminate|]. intros H. rewrite (H n v a (or_introl eq_refl) Ha) in Hi.
        discriminate.
      * split; [discriminate|]. intros H. rewrite (H n v a (or_introl eq_refl) Ha) in Hi.
        discriminate.
    + rewrite IH. split.
      * intros H n' v' a' [Heq|Hin] Ha'; [|exact (H _ _ _ Hin Ha')].
        injection Heq as <- <-. congruence.
      * intros H n' v' a' Hin Ha'. exact (H _ _ _ (or_intror Hin) Ha').
Qed.

Lemma annotation_of_unannotated (ps : list Decorators.Param) (n : string) :
  Forall (fun p => Decorators.pann p = None) ps -> Decorators.annotation_of ps n = None.
Proof.
  induction 1 as [|p ps Hp _ IH]; cbn; [reflexivity|].
  destruct (String.eqb (Decorators.pname p) n); [exact Hp|exact IH].
Qed.

(** [def greet(name: str, age: int) -> str], with a body returning a
    string, as in the docstring of [enforce_types]. *)
Definition greet : Decorators.PyFunc :=
  {| Decorators.fparams :=
       [{| Decorators.pname := "name"; Decorators.pann := Some (Decorators.AClass Decorators.CStr);
           Decorators.pkind := Decorators.Positional None |};
        {| Decorators.pname := "age"; Decorators.pann := Some (Decorators.AClass Decorators.CInt);
           Decorators.pkind := Decorators.Positional None |}];
     Decorators.freturn := Some (Decorators.AClass Decorators.CStr);
     Decorators.fbody := fun _ => Ok (Decorators.VStr "Hello!") |}.

(** [def pair(x, y=None)], without annotations, returning [y]. *)
Definition pair_fn : Decorators.PyFunc :=
  {| Decorators.fparams :=
       [{| Decorators.pname := "x"; Decorators.pann := None;
           Decorators.pkind := Decorators.Positional None |};
        {| Decorators.pname := "y"; Decorators.pann := None;
           Decorators.pkind := Decorators.Positional (Some Decorators.VNone) |}];
     Decorators.freturn := None;
     Decorators.fbody := fun bound =>
       match bound with
       | [_; (_, y)] => Ok y
       | _ => Exc TypeError
       end |}.

(** ** An Etherscan-style error answer of the gas oracle *)

(** A node at height 101 whose scan returns one well-formed lock event
    for the destination chain, and a gas oracle answering
    [{"status": "0", "message": "NOTOK", "result": "Invalid API Key"}]. *)
Definition bad_key_env : Env :=
  {| env_block_number := Ok 101%Z;
     env_entries := fun _ _ => Ok [example_event "0xa" 101 0 1000 80001];
     env_dest_chain_id := fun _ => Ok 80001%Z;
     env_oracle := fun _ => OracleJson (JObj [("status", JStr "0"); ("message", JStr "NOTOK");
                                              ("result", JStr "Invalid API Key")]);
     env_write := fun _ => WriteOk |}.

(** A DB file holding [{"processed_txs": ["0xa", "0xa", 7]}]. *)
Definition dup_file_tokens : list token :=
  [TLBrace; TStr "processed_txs"; TColon;
   TLBrack; TStr "0xa"; TComma; TStr "0xa"; TComma; TNum 7; TRBrack; TRBrace].

(* ================================================================== *)
(** * Further properties: statements *)

(** ** No transaction is dispatched twice *)

(** From a listener whose StateDB holds [X0], over any number of
    iterations: no transaction hash is dispatched twice, every dispatched
    hash is in the set at the end and was not in [X0], and [X0] is still
    contained in the set. *)
Theorem listen_dispatches_each_tx_at_most_once (envs : list Env) (lpb pi : Z)
    (X0 : gset pykey) (d : option contents) :
  let s' := snd (listen envs (mkSt lpb pi X0 d [])) in
  NoDup (dispatches (trace s')) /\ X0 ⊆ processed_txs s' /\
  (forall t, In t (dispatches (trace s')) -> KStr t ∈ processed_txs s' /\ KStr t ∉ X0).
Proof.
  cbv zeta. apply (inv_listen X0 envs). unfold dispatch_inv. cbn [trace processed_txs].
  split; [constructor|]. split; [set_solver|]. intros t [].
Qed.

(** ** When [process_event] dispatches *)

(** [process_event] dispatches the transaction exactly when its hash is
    new, [from], [amount] and [toChainId] are truthy, the destination
    chain id can be read and equals [toChainId], [from_wei(amount)] does
    not raise, and the gas oracle call does not raise; it then returns
    normally, the hash is added to the set, and the file is rewritten with
    the new set.  Otherwise nothing is dispatched and the set and the file
    are unchanged; when only the oracle call fails, its exception
    propagates out of [process_event]. *)
Theorem process_event_dispatch_conditions (env : Env) (e : Event) (s : St) :
  let t := transactionHash e in
  let s' := snd (process_event env e s) in
  (dispatch_conditions env e s = true ->
     fst (process_event env e s) = Ok tt /\
     dispatches (trace s') = dispatches (trace s) ++ [t] /\
     processed_txs s' = {[KStr t]} ∪ processed_txs s /\
     disk s' = saved_disk (env_write env t) ({[KStr t]} ∪ processed_txs s) (disk s)) /\
  (dispatch_conditions env e s = false ->
     dispatches (trace s') = dispatches (trace s) /\
     processed_txs s' = processed_txs s /\
     disk s' = disk s /\
     (pre_oracle_ok env e s = true ->
        fst (process_event env e s) = Exc (match oracle_result (env_oracle env t) with
                                           | Exc x => x | Ok _ => TypeError end))).
Proof. exact (process_event_spec env e s). Qed.

(** ** The gas oracle *)

(** [_get_current_gas_price_from_oracle] returns [None] with a warning on a
    [RequestException], lets every other exception through, returns
    [data['result']['ProposeGasPrice']] (or [None] when a key is missing)
    when the body is an object whose ['result'] is an object or absent,
    and raises [AttributeError] when the body or its ['result'] is not an
    object (for instance an error string); only the [RequestException]
    case logs. *)
Theorem gas_price_oracle_outcomes (s : St) :
  (forall e, is_RequestException e = true ->
     _get_current_gas_price_from_oracle (OracleRaises e) s
     = (Ok None, with_trace s (trace s ++ [ALog WARNING "Could not fetch gas price from oracle."]))) /\
  (forall e, is_RequestException e = false ->
     _get_current_gas_price_from_oracle (OracleRaises e) s = (Exc e, s)) /\
  (forall kvs r, assoc_last "result" kvs None = Some (JObj r) ->
     _get_current_gas_price_from_oracle (OracleJson (JObj kvs)) s
     = (Ok (assoc_last "ProposeGasPrice" r None), s)) /\
  (forall kvs, assoc_last "result" kvs None = None ->
     _get_current_gas_price_from_oracle (OracleJson (JObj kvs)) s = (Ok None, s)) /\
  (forall kvs v, assoc_last "result" kvs None = Some v -> (forall r, v <> JObj r) ->
     _get_current_gas_price_from_oracle (OracleJson (JObj kvs)) s = (Exc AttributeError, s)) /\
  (forall j, (forall kvs, j <> JObj kvs) ->
     _get_current_gas_price_from_oracle (OracleJson j) s = (Exc AttributeError, s)).
Proof.
  assert (Hs : with_trace s (trace s ++ []) = s) by (destruct s; cbn; rewrite app_nil_r; reflexivity).
  split; [|split; [|split; [|split; [|split]]]].
  - intros e He. rewrite oracle_eq. unfold oracle_result, oracle_log. rewrite He. reflexivity.
  - intros e He. rewrite oracle_eq. unfold oracle_result, oracle_log. rewrite He. exact (f_equal _ Hs).
  - intros kvs r Hr. rewrite oracle_eq. cbn [oracle_log]. rewrite Hs.
    unfold oracle_result, dict_get, dict_get_opt. rewrite Hr. reflexivity.
  - intros kvs Hr. rewrite oracle_eq. cbn [oracle_log]. rewrite Hs.
    unfold oracle_result, dict_get, dict_get_opt. rewrite Hr. reflexivity.
  - intros kvs v Hr Hv. rewrite oracle_eq. cbn [oracle_log]. rewrite Hs.
    unfold oracle_result, dict_get, dict_get_opt. rewrite Hr.
    destruct v; try reflexivity. exfalso. exact (Hv _ eq_refl).
  - intros j Hj. rewrite oracle_eq. cbn [oracle_log]. rewrite Hs.
    destruct j; try reflexivity. exfalso. exact (Hj _ eq_refl).
Qed.

(** ** An oracle failure stalls the listener *)

(** If the first event of the next block range passes every check before
    the oracle call, and the oracle call raises (for instance
    [AttributeError] on an error string in ['result']), then every
    iteration rescans the same range and fails on the same event: over
    [n] such iterations the loop keeps running, but [last_processed_block],
    the set, the file and the dispatches never change, and each iteration
    sleeps [2 * poll_interval]. *)
Theorem oracle_failure_stalls_listener (env : Env) (s : St) (latest : Z) (e : Event)
    (es : list Event) (x : exn) (n : nat)
    (Hb : env_block_number env = Ok latest)
    (Hlt : (last_processed_block s < latest)%Z)
    (He : env_entries env (last_processed_block s + 1) latest = Ok (e :: es))
    (Hpre : pre_oracle_ok env e s = true)
    (Ho : oracle_result (env_oracle env (transactionHash e)) = Exc x)
    (Hx : is_Exception x = true) :
  let s' := snd (listen (repeat env n) s) in
  fst (listen (repeat env n) s) = Ok tt /\
  last_processed_block s' = last_processed_block s /\
  processed_txs s' = processed_txs s /\
  disk s' = disk s /\
  dispatches (trace s') = dispatches (trace s) /\
  sleeps (trace s') = sleeps (trace s) ++ repeat (2 * poll_interval s)%Z n.
Proof.
  cbv zeta. revert s Hlt He Hpre. induction n as [|n IH]; intros s Hlt He Hpre.
  - cbn. rewrite app_nil_r. repeat split.
  - destruct (stalled_iter env s latest e es x Hb Hlt He Hpre Ho Hx)
      as (Hok & Hl & Hp & HX & Hd & Hdi & Hsl).
    destruct (listen_iter env s) as [r s1] eqn:E. cbn [fst snd] in *. subst r.
    assert (Hs : listen (repeat env (S n)) s = listen (repeat env n) s1).
    { change (listen (repeat env (S n))) with (listen_iter env ;; listen (repeat env n)).
      unfold bind at 1. rewrite E. reflexivity. }
    rewrite Hs.
    rewrite <- Hl in Hlt, He. rewrite <- (pre_oracle_ok_set env e s s1 HX) in Hpre.
    destruct (IH s1 Hlt He Hpre) as (Hok' & Hl' & HX' & Hd' & Hdi' & Hsl').
    split; [exact Hok'|]. split; [congruence|]. split; [congruence|]. split; [congruence|].
    split; [congruence|]. rewrite Hsl', Hsl, Hp, <- app_assoc. reflexivity.
Qed.

Lemma oracle_failure_stalls_listener_witness :
  let s := example_state 100 in
  let e := example_event "0xa" 101 0 1000 80001 in
  env_block_number bad_key_env = Ok 101%Z /\
  (last_processed_block s < 101)%Z /\
  env_entries bad_key_env (last_processed_block s + 1) 101 = Ok [e] /\
  pre_oracle_ok bad_key_env e s = true /\
  oracle_result (env_oracle bad_key_env (transactionHash e)) = Exc AttributeError /\
  is_Exception AttributeError = true /\
  (let s' := snd (listen (repeat bad_key_env 3) s) in
   fst (listen (repeat bad_key_env 3) s) = Ok tt /\
   last_processed_block s' = last_processed_block s /\
   processed_txs s' = processed_txs s /\
   disk s' = disk s /\
   dispatches (trace s') = dispatches (trace s) /\
   sleeps (trace s') = sleeps (trace s) ++ repeat (2 * poll_interval s)%Z 3).
Proof.
  cbv zeta.
  split; [reflexivity|]. split; [cbn; lia|]. split; [reflexivity|].
  split; [vm_compute; reflexivity|]. split; [reflexivity|]. split; [reflexivity|].
  apply (oracle_failure_stalls_listener bad_key_env (example_state 100) 101
           (example_event "0xa" 101 0 1000 80001) [] AttributeError 3);
    [reflexivity|cbn; lia|reflexivity|vm_compute; reflexivity|reflexivity|reflexivity].
Defined.

(** ** Loading the StateDB file *)



(** What a successful [_save] writes, a new [StateDB] reads back: the
    in-memory set of the saving instance, whatever the loading instance
    held before. *)
Theorem saved_state_reloads (s : St) (lpb pi : Z) (Y : gset pykey) (tr : list action) :
  let d := disk (snd (_save WriteOk s)) in
  StateDB_init (mkSt lpb pi Y d tr)
  = (Ok tt, mkSt lpb pi (processed_txs s) d (tr ++ [ALog INFO "StateDB initialized."])).
Proof.
  cbv zeta. rewrite (StateDB_init_loaded (processed_txs s)); [reflexivity|]. apply load_dump. reflexivity.
Qed.

Lemma py_set_error (v : json) (e : exn) : py_set v = Exc e -> e = TypeError.
Proof.
  destruct v as [| | | |xs|]; cbn; try congruence.
  revert e. induction xs as [|x xs IH]; cbn; intros e He; [discriminate|].
  destruct (hash_key x) eqn:Hh; [|destruct x; cbn in Hh; congruence].
  destruct (set_of_keys xs); [discriminate|]. injection He as <-. apply (IH _ eq_refl).
Qed.

(** When the file holds a JSON object: without a ["processed_txs"] key
    the set is empty and nothing is logged; a list of strings, integers
    and nulls gives the set of its elements (order and repetitions
    dropped); a string gives the set of its characters; and a value
    [set()] cannot take (a number, [null], [true], a list holding a list
    or an object) raises its [TypeError] out of [_load], uncaught. *)
Theorem load_json_object (ts : list token) (kvs : list (string * json)) (s : St)
    (Hd : disk s = Some (FTokens ts))
    (Hj : json_loads ts = Ok (JObj kvs)) :
  (assoc_last "processed_txs" kvs None = None -> _load s = (Ok ∅, s)) /\
  (forall ks, assoc_last "processed_txs" kvs None = Some (JArr (map key_json ks)) ->
     _load s = (Ok (list_to_set ks), s)) /\
  (forall str, assoc_last "processed_txs" kvs None = Some (JStr str) ->
     _load s = (Ok (list_to_set (string_chars str)), s)) /\
  (forall v e, assoc_last "processed_txs" kvs None = Some v -> py_set v = Exc e ->
     e = TypeError /\ _load s = (Exc TypeError, s)).
Proof.
  assert (Hl : forall v, assoc_last "processed_txs" kvs None = Some v ->
                 _load s = (py_set v, s)).
  { intros v Hv. unfold _load. unfold_M. rewrite Hd. cbn [read_json]. rewrite Hj. unfold_M.
    cbn [dict_get dict_get_opt]. rewrite Hv. unfold_M.
    destruct (py_set v) as [X|e] eqn:Hp; [reflexivity|].
    rewrite (py_set_error _ _ Hp). reflexivity. }
  split; [|split; [|split]].
  - intros Hv. unfold _load. unfold_M. rewrite Hd. cbn [read_json]. rewrite Hj. unfold_M.
    cbn [dict_get dict_get_opt]. rewrite Hv. reflexivity.
  - intros ks Hv. rewrite (Hl _ Hv). cbn [py_set]. rewrite set_of_keys_map. reflexivity.
  - intros str Hv. rewrite (Hl _ Hv). reflexivity.
  - intros v e Hv He. rewrite (Hl _ Hv), He. rewrite (py_set_error _ _ He).
    split; reflexivity.
Qed.

Lemma load_json_object_witness :
  let s := mkSt 0 15 ∅ (Some (FTokens dup_file_tokens)) [] in
  let kvs := [("processed_txs", JArr [JStr "0xa"; JStr "0xa"; JNum 7])] in
  disk s = Some (FTokens dup_file_tokens) /\
  json_loads dup_file_tokens = Ok (JObj kvs) /\
  ((assoc_last "processed_txs" kvs None = None -> _load s = (Ok ∅, s)) /\
   (forall ks, assoc_last "processed_txs" kvs None = Some (JArr (map key_json ks)) ->
      _load s = (Ok (list_to_set ks), s)) /\
   (forall str, assoc_last "processed_txs" kvs None = Some (JStr str) ->
      _load s = (Ok (list_to_set (string_chars str)), s)) /\
   (forall v e, assoc_last "processed_txs" kvs None = Some v -> py_set v = Exc e ->
      e = TypeError /\ _load s = (Exc TypeError, s))).
Proof.
  cbv zeta. split; [reflexivity|]. split; [reflexivity|].
  apply (load_json_object dup_file_tokens); reflexivity.
Defined.

(** ** The start block *)

(** [_get_start_block] starts from a configured integer without asking
    the node; otherwise from the node's height.  When the height query
    fails with an [Exception], two errors are logged and the process
    exits with status 1; a [KeyboardInterrupt] goes through, with nothing
    logged. *)
Theorem start_block_outcomes (cfg : pyval) (r : result Z) (s : St) :
  (forall n, cfg = PInt n ->
     _get_start_block cfg r s
     = (Ok (StartAt n), with_trace s (trace s ++ [ALog INFO "Starting from configured block number"]))) /\
  ((forall n, cfg <> PInt n) ->
     (forall h, r = Ok h ->
        _get_start_block cfg r s
        = (Ok (StartAt h), with_trace s (trace s ++ [ALog INFO "Starting from the latest block"]))) /\
     (forall e, r = Exc e -> is_Exception e = true ->
        _get_start_block cfg r s
        = (Ok (SysExit 1), with_trace s (trace s ++
             [ALog ERROR "Failed to get latest block number.";
              ALog ERROR "Could not fetch the latest block. Exiting."]))) /\
     (forall e, r = Exc e -> is_Exception e = false ->
        _get_start_block cfg r s = (Exc e, s))).
Proof.
  destruct s as [lpb pi X d tr]. split.
  - intros n ->. reflexivity.
  - intros Hc.
    assert (Hs : _get_start_block cfg r (mkSt lpb pi X d tr)
               = (latest_block <- get_latest_block_number r ;;
                  match latest_block with
                  | Some n => log INFO "Starting from the latest block" ;; ret (StartAt n)
                  | None => log ERROR "Could not fetch the latest block. Exiting." ;;
                            ret (SysExit 1)
                  end) (mkSt lpb pi X d tr)).
    { destruct cfg as [|n|str]; try reflexivity. exfalso. exact (Hc n eq_refl). }
    rewrite Hs. split; [|split].
    + intros h ->. reflexivity.
    + intros e -> He. unfold get_latest_block_number. unfold_M. cbn. rewrite He.
      unfold log, emit. cbn. rewrite <- app_assoc. reflexivity.
    + intros e -> He. unfold get_latest_block_number. unfold_M. cbn. rewrite He. reflexivity.
Qed.

(** ** How [listen] ends *)

(** Every run of the loop either goes on (returns normally after its
    iterations) or ends with [KeyboardInterrupt]: no other exception
    leaves [listen].  A [KeyboardInterrupt] from the height query ends the
    loop at once, with nothing logged, slept or changed, and the later
    iterations are not run. *)
Theorem listen_ends_only_by_interrupt (envs : list Env) (s : St) :
  (fst (listen envs s) = Ok tt \/ fst (listen envs s) = Exc KeyboardInterrupt) /\
  (forall env envs', env_block_number env = Exc KeyboardInterrupt ->
     listen (env :: envs') s = (Exc KeyboardInterrupt, s)).
Proof.
  split.
  - revert s. induction envs as [|env envs IH]; intros s; [left; reflexivity|].
    change (listen (env :: envs)) with (listen_iter env ;; listen envs).
    unfold bind.
    destruct (listen_body env s) as [[[]|e] s1] eqn:E.
    + rewrite (listen_iter_body_ok env s s1 E). apply IH.
    + destruct (is_Exception e) eqn:Hx.
      * rewrite (listen_iter_body_exc env s s1 e E Hx). apply IH.
      * rewrite (listen_iter_body_interrupt env s s1 e E Hx). cbn [fst].
        right. destruct e; try discriminate. reflexivity.
  - intros env envs' Hb.
    change (listen (env :: envs')) with (listen_iter env ;; listen envs').
    unfold bind at 1.
    rewrite (listen_iter_body_interrupt env s s KeyboardInterrupt
               (listen_body_height_interrupt env s KeyboardInterrupt Hb eq_refl) eq_refl).
    reflexivity.
Qed.

(** ** [enforce_types] *)

(** On a function without annotations the decorator changes nothing: the
    decorated call returns or raises what the plain call does, and the
    body runs exactly when the arguments bind to the signature. *)
Theorem enforce_types_transparent_without_annotations (f : Decorators.PyFunc)
    (args : list Decorators.pyobj)
    (Hp : Forall (fun p => Decorators.pann p = None) (Decorators.fparams f))
    (Hr : Decorators.freturn f = None) :
  Decorators.enforce_types f args
  = (Decorators.call f args,
     match Decorators.bind_args (Decorators.fparams f) args with
     | Ok _ => true | Exc _ => false end).
Proof.
  unfold Decorators.enforce_types, Decorators.call.
  destruct (Decorators.bind_args (Decorators.fparams f) args) as [bound|e]; [|reflexivity].
  assert (Hc : Decorators.check_args (Decorators.fparams f) bound = Ok tt).
  { apply check_args_ok_iff. intros n v a _ Ha.
    rewrite (annotation_of_unannotated _ n Hp) in Ha. discriminate. }
  rewrite Hc. destruct (Decorators.fbody f bound); [rewrite Hr|]; reflexivity.
Qed.

Lemma enforce_types_transparent_without_annotations_witness :
  Forall (fun p => Decorators.pann p = None) (Decorators.fparams pair_fn) /\
  Decorators.freturn pair_fn = None /\
  Decorators.enforce_types pair_fn [Decorators.VStr "a"]
  = (Decorators.call pair_fn [Decorators.VStr "a"],
     match Decorators.bind_args (Decorators.fparams pair_fn) [Decorators.VStr "a"] with
     | Ok _ => true | Exc _ => false end).
Proof.
  split; [repeat constructor|]. split; [reflexivity|].
  apply enforce_types_transparent_without_annotations; [repeat constructor|reflexivity].
Defined.

(** When every annotated argument (defaults included) is an instance of
    its annotation and the result of the body is an instance of the
    return annotation, the decorated call runs the body and returns or
    raises exactly what the plain call does. *)
Theorem enforce_types_accepts_well_typed_call (f : Decorators.PyFunc)
    (args : list Decorators.pyobj) (bound : list (string * Decorators.pyobj))
    (Hb : Decorators.bind_args (Decorators.fparams f) args = Ok bound)
    (Hargs : forall n v a, In (n, v) bound -> Decorators.annotation_of (Decorators.fparams f) n = Some a ->
             Decorators.isinstance v a = Ok true)
    (Hret : forall r a, Decorators.call f args = Ok r -> Decorators.freturn f = Some a ->
            Decorators.isinstance r a = Ok true) :
  Decorators.enforce_types f args = (Decorators.call f args, true).
Proof.
  unfold Decorators.enforce_types. unfold Decorators.call in *. rewrite Hb in *.
  rewrite (proj2 (check_args_ok_iff _ _) Hargs).
  destruct (Decorators.fbody f bound) as [r|e]; [|reflexivity].
  destruct (Decorators.freturn f) as [a|]; [|reflexivity].
  rewrite (Hret r a eq_refl eq_refl). reflexivity.
Qed.

Lemma enforce_types_accepts_well_typed_call_witness :
  let args := [Decorators.VStr "Alice"; Decorators.VInt 30] in
  let bound := [("name", Decorators.VStr "Alice"); ("age", Decorators.VInt 30)] in
  Decorators.bind_args (Decorators.fparams greet) args = Ok bound /\
  (forall n v a, In (n, v) bound -> Decorators.annotation_of (Decorators.fparams greet) n = Some a ->
     Decorators.isinstance v a = Ok true) /\
  (forall r a, Decorators.call greet args = Ok r -> Decorators.freturn greet = Some a ->
     Decorators.isinstance r a = Ok true) /\
  Decorators.enforce_types greet args = (Decorators.call greet args, true).
Proof.
  cbv zeta.
  assert (Ha : forall n v a,
             In (n, v) [("name", Decorators.VStr "Alice"); ("age", Decorators.VInt 30%Z)] ->
             Decorators.annotation_of (Decorators.fparams greet) n = Some a ->
             Decorators.isinstance v a = Ok true).
  { intros n v a [H|[H|[]]]; injection H as <- <-; cbn; intros H; injection H as <-; reflexivity. }
  assert (Hr : forall r a, Decorators.call greet [Decorators.VStr "Alice"; Decorators.VInt 30%Z] = Ok r ->
             Decorators.freturn greet = Some a -> Decorators.isinstance r a = Ok true).
  { cbn. intros r a H1 H2. injection H1 as <-. injection H2 as <-. reflexivity. }
  split; [reflexivity|]. split; [exact Ha|]. split; [exact Hr|].
  exact (enforce_types_accepts_well_typed_call greet [Decorators.VStr "Alice"; Decorators.VInt 30%Z] _ eq_refl Ha Hr).
Defined.

(** If a bound argument (a default included) is not accepted by
    [isinstance] against its annotation, the decorated call raises and
    the body does not run.  The exception is [TypeError], or
    [AttributeError] when the failing annotation is an [X | Y] union or a
    tuple of classes, which have no [__name__] for the error message; it
    is [TypeError] when no parameter is annotated with such a union or
    tuple. *)
Theorem enforce_types_rejects_ill_typed_argument (f : Decorators.PyFunc)
    (args : list Decorators.pyobj) (bound : list (string * Decorators.pyobj))
    (n : string) (v : Decorators.pyobj) (a : Decorators.ann)
    (Hb : Decorators.bind_args (Decorators.fparams f) args = Ok bound)
    (Hin : In (n, v) bound)
    (Ha : Decorators.annotation_of (Decorators.fparams f) n = Some a)
    (Hv : Decorators.isinstance v a <> Ok true) :
  snd (Decorators.enforce_types f args) = false /\
  (fst (Decorators.enforce_types f args) = Exc TypeError \/
   fst (Decorators.enforce_types f args) = Exc AttributeError) /\
  (Forall (fun p => match Decorators.pann p with
                    | Some (Decorators.AUnionType _) | Some (Decorators.ATuple _) => False
                    | _ => True
                    end) (Decorators.fparams f) ->
   Decorators.enforce_types f args = (Exc TypeError, false)).
Proof.
  destruct (Decorators.check_args (Decorators.fparams f) bound) as [[]|e] eqn:Hc.
  { exfalso. apply Hv. exact (proj1 (check_args_ok_iff _ _) Hc n v a Hin Ha). }
  rewrite (enforce_types_check_fails f args bound e Hb Hc). cbn [fst snd].
  split; [reflexivity|].
  destruct (check_args_exn _ _ _ Hc) as [->|(-> & n' & cs & Hcs)].
  - split; [left; reflexivity|]. intros _. reflexivity.
  - split; [right; reflexivity|]. intros Hall. exfalso.
    destruct Hcs as [Hcs|Hcs]; destruct (annotation_of_in _ _ _ Hcs) as (p & Hp & Hpa);
      rewrite Forall_forall in Hall; specialize (Hall p (proj2 (list_elem_of_In _ _) Hp)); rewrite Hpa in Hall; exact Hall.
Qed.

Lemma enforce_types_rejects_ill_typed_argument_witness :
  let args := [Decorators.VStr "Bob"; Decorators.VStr "twenty"] in
  let bound := [("name", Decorators.VStr "Bob"); ("age", Decorators.VStr "twenty")] in
  Decorators.bind_args (Decorators.fparams greet) args = Ok bound /\
  In ("age", Decorators.VStr "twenty") bound /\
  Decorators.annotation_of (Decorators.fparams greet) "age" = Some (Decorators.AClass Decorators.CInt) /\
  Decorators.isinstance (Decorators.VStr "twenty") (Decorators.AClass Decorators.CInt) <> Ok true /\
  (snd (Decorators.enforce_types greet args) = false /\
   (fst (Decorators.enforce_types greet args) = Exc TypeError \/
    fst (Decorators.enforce_types greet args) = Exc AttributeError) /\
   (Forall (fun p => match Decorators.pann p with
                     | Some (Decorators.AUnionType _) | Some (Decorators.ATuple _) => False
                     | _ => True
                     end) (Decorators.fparams greet) ->
    Decorators.enforce_types greet args = (Exc TypeError, false))).
Proof.
  cbv zeta. split; [reflexivity|]. split; [right; left; reflexivity|].
  split; [reflexivity|]. split; [discriminate|].
  apply (enforce_types_rejects_ill_typed_argument greet _
           [("name", Decorators.VStr "Bob"); ("age", Decorators.VStr "twenty")]
           "age" (Decorators.VStr "twenty") (Decorators.AClass Decorators.CInt));
    [reflexivity|right; left; reflexivity|reflexivity|discriminate].
Defined.

(** Arguments that do not fit the signature (too many, or a parameter
    without default left out) make [sig.bind] raise [TypeError] in the
    decorated call as in the plain one, before any check, and the body
    does not run. *)
Theorem enforce_types_bad_arity (f : Decorators.PyFunc) (args : list Decorators.pyobj) (e : exn)
    (Hb : Decorators.bind_args (Decorators.fparams f) args = Exc e) :
  Decorators.enforce_types f args = (Exc TypeError, false) /\
  Decorators.call f args = Exc TypeError.
Proof.
  pose proof (bind_args_error _ _ _ Hb) as ->.
  unfold Decorators.enforce_types, Decorators.call. rewrite Hb. split; reflexivity.
Qed.

Lemma enforce_types_bad_arity_witness :
  Decorators.bind_args (Decorators.fparams greet) [Decorators.VStr "Alice"] = Exc TypeError /\
  (Decorators.enforce_types greet [Decorators.VStr "Alice"] = (Exc TypeError, false) /\
   Decorators.call greet [Decorators.VStr "Alice"] = Exc TypeError).
Proof.
  split; [reflexivity|]. apply (enforce_types_bad_arity greet _ TypeError). reflexivity.
Defined.
